(** * Wayland/DRM helpers of libva: a shallow embedding of
    [va/wayland/va_wayland_drm.c] and the properties of its three entry
    points, [va_wayland_drm_init], [va_wayland_drm_finalize] and
    [va_DisplayContextGetDriverName].

    The C code is glue around external libraries (libc, libdl, libdrm,
    libwayland-client).  Each external call is modelled by a primitive that
    takes the answer of the environment as an argument, appends the call and
    its answer to a log, and hands the answer back; the C structures are
    records, pointers to them are [option]s, and a dereference of a null
    pointer is a fault of the error monad. *)

From Stdlib Require Import ZArith List String Ascii Bool Lia.
Import ListNotations.
Open Scope string_scope.
Open Scope Z_scope.

(** ** Data model *)

(** Addresses of objects owned by the external libraries (proxies, library
    handles, symbols, the display): only null-ness is ever tested. *)
Definition ptr := Z.
Definition NULL : ptr := 0.

(** [struct drm_state] (declared in va_drmcommon.h). *)
Record drm_state := mk_drm_state {
  fd : Z;
  auth_type : Z
}.

(** Modelled from the spec: the constant [VA_DRM_AUTH_CUSTOM] of
    va_drmcommon.h, a header that is not among the sources.  The data model
    gives the authentication type as the enumeration None, Custom, None
    being the [0] that the initializer stores; no property below depends on
    the value chosen for Custom. *)
Definition VA_DRM_AUTH_CUSTOM : Z := 3.

(** Modelled from the spec: the status codes of va.h, a header that is not
    among the sources; the resolver reports success, a generic unknown
    error, or an allocation failure. *)
Inductive VAStatus :=
| VA_STATUS_SUCCESS
| VA_STATUS_ERROR_ALLOCATION_FAILED
| VA_STATUS_ERROR_UNKNOWN.

(** The functions of this file that are stored in hooks of the context. *)
Inductive hook :=
| fn_va_wayland_drm_finalize
| fn_va_DisplayContextGetDriverName.

(** [VADisplayContextWaylandDRM], reached as [wl_ctx->backend.drm]. *)
Record VADisplayContextWaylandDRM := mk_wl_drm_ctx {
  drm : ptr;
  is_authenticated : Z;
  libEGL_handle : ptr;
  drm_interface : ptr
}.

(** [struct VADisplayContextWayland], reached as [pDisplayContext->opaque]. *)
Record VADisplayContextWayland := mk_wl_ctx {
  finalize : option hook;
  backend_drm : VADisplayContextWaylandDRM
}.

(** [struct VADriverContext], reached as [pDisplayContext->pDriverContext].
    The field [ctx_drm_state] is the C field [drm_state]: [None] is the null
    pointer, [Some s] a pointer to a live block holding [s]. *)
Record VADriverContext := mk_driver_ctx {
  native_dpy : ptr;
  ctx_drm_state : option drm_state
}.

(** [struct VADisplayContext]. *)
Record VADisplayContext := mk_display_ctx {
  pDriverContext : VADriverContext;
  opaque : VADisplayContextWayland;
  vaGetDriverName : option hook
}.

(** The part of [drmVersion] (xf86drm.h) that the resolver reads. *)
Record drmVersion := mk_drmVersion {
  v_name_len : Z;
  v_name : string
}.

(** [struct driver_name_map]; [None] is a null string pointer. *)
Record driver_name_map := mk_driver_name_map {
  key : option string;
  key_len : Z;
  name : option string
}.

(** Events of the [wl_drm] interface, in the order of [drm_listener].  A
    device advertisement comes with what the operating system answers while
    its callback runs. *)
Record os_answers := mk_os_answers {
  os_stat : option Z;          (* [None]: stat fails; [Some m]: [st_mode] *)
  os_open : option N;          (* [None]: open returns -1; [Some n]: fd [n] *)
  os_getmagic : Z * Z          (* return value of drmGetMagic, and [magic] *)
}.

Inductive wl_drm_event :=
| Ev_device (device : string) (os : os_answers)
| Ev_format (format : Z)
| Ev_authenticated.

(** The log: external calls with their answers, and callbacks entered. *)
Inductive call :=
| C_calloc (ok : bool)
| C_wl_display_get_global (dpy : ptr) (interface : string) (version : Z) (id : Z)
| C_wl_display_roundtrip (dpy : ptr)
| C_dlopen (file : string) (handle : ptr)
| C_dlsym (handle : ptr) (symbol : string) (addr : ptr)
| C_wl_display_bind (dpy : ptr) (id : Z) (interface : ptr) (proxy : ptr)
| C_wl_drm_add_listener (proxy : ptr) (ret : Z)
| C_callback (ev : wl_drm_event)
| C_stat (path : string) (res : option Z)
| C_open (path : string) (res : option N)
| C_va_wayland_error (format : string) (device : string)
| C_drmGetMagic (fd : Z) (ret : Z) (magic : Z)
| C_wl_drm_authenticate (proxy : ptr) (magic : Z)
| C_wl_drm_destroy (proxy : ptr)
| C_dlclose (handle : ptr)
| C_close (fd : Z)
| C_free (block : drm_state)
| C_drmGetVersion (fd : Z) (res : option drmVersion)
| C_drmFreeVersion (v : drmVersion)
| C_strdup (s : string) (res : option string).

(** The state threaded through the code: the display context and the log. *)
Record State := mk_State {
  dc : VADisplayContext;
  log : list call
}.

(** ** The monad: state passing, with a fault for a null dereference *)

Definition M (A : Type) : Type := State -> option (A * State).

Definition ret {A} (a : A) : M A := fun st => Some (a, st).

Definition bind {A B} (m : M A) (k : A -> M B) : M B :=
  fun st => match m st with
            | Some (a, st') => k a st'
            | None => None
            end.

Definition fault {A} : M A := fun _ => None.

Declare Scope m_scope.
Delimit Scope m_scope with M.
Notation "x <- m ;; k" := (bind m (fun x => k))
  (at level 100, m at next level, right associativity) : m_scope.
Notation "m ;; k" := (bind m (fun _ => k))
  (at level 100, right associativity) : m_scope.
Open Scope m_scope.

Definition get {A} (f : VADisplayContext -> A) : M A :=
  fun st => Some (f (dc st), st).

Definition modify (f : VADisplayContext -> VADisplayContext) : M unit :=
  fun st => Some (tt, mk_State (f (dc st)) (log st)).

Definition emit (c : call) : M unit :=
  fun st => Some (tt, mk_State (dc st) (log st ++ [c])).

(** Field updates. *)
Definition upd_wl_drm (f : VADisplayContextWaylandDRM -> VADisplayContextWaylandDRM)
  (c : VADisplayContext) : VADisplayContext :=
  mk_display_ctx (pDriverContext c)
    (mk_wl_ctx (finalize (opaque c)) (f (backend_drm (opaque c))))
    (vaGetDriverName c).

Definition set_drm p w := mk_wl_drm_ctx p (is_authenticated w) (libEGL_handle w) (drm_interface w).
Definition set_is_authenticated b w := mk_wl_drm_ctx (drm w) b (libEGL_handle w) (drm_interface w).
Definition set_libEGL_handle h w := mk_wl_drm_ctx (drm w) (is_authenticated w) h (drm_interface w).
Definition set_drm_interface i w := mk_wl_drm_ctx (drm w) (is_authenticated w) (libEGL_handle w) i.

Definition set_finalize (h : option hook) (c : VADisplayContext) : VADisplayContext :=
  mk_display_ctx (pDriverContext c)
    (mk_wl_ctx h (backend_drm (opaque c))) (vaGetDriverName c).

Definition set_vaGetDriverName (h : option hook) (c : VADisplayContext) : VADisplayContext :=
  mk_display_ctx (pDriverContext c) (opaque c) h.

Definition set_ctx_drm_state (s : option drm_state) (c : VADisplayContext) : VADisplayContext :=
  mk_display_ctx (mk_driver_ctx (native_dpy (pDriverContext c)) s)
    (opaque c) (vaGetDriverName c).

(** Accessors along the fixed pointers of the context. *)
Definition wl_drm_ctx (c : VADisplayContext) := backend_drm (opaque c).
Definition ctx (c : VADisplayContext) := pDriverContext c.

(** [drm_state->f]: a read through [ctx->drm_state], null faults. *)
Definition load_drm_state {A} (f : drm_state -> A) : M A :=
  s <- get (fun c => ctx_drm_state (ctx c)) ;;
  match s with
  | Some s => ret (f s)
  | None => fault
  end.

(** [drm_state->f = v]: a write through [ctx->drm_state], null faults. *)
Definition store_drm_state (f : drm_state -> drm_state) : M unit :=
  s <- get (fun c => ctx_drm_state (ctx c)) ;;
  match s with
  | Some s => modify (set_ctx_drm_state (Some (f s)))
  | None => fault
  end.

Definition set_fd (v : Z) (s : drm_state) := mk_drm_state v (auth_type s).
Definition set_auth_type (v : Z) (s : drm_state) := mk_drm_state (fd s) v.

(** ** External calls

    Every primitive takes the answer of the environment, logs the call with
    that answer and returns it. *)

Definition calloc (ok : bool) : M bool :=
  emit (C_calloc ok) ;; ret ok.

Definition wl_display_get_global (ans : Z) (dpy : ptr) (interface : string)
  (version : Z) : M Z :=
  emit (C_wl_display_get_global dpy interface version ans) ;; ret ans.

Definition dlopen (ans : ptr) (file : string) : M ptr :=
  emit (C_dlopen file ans) ;; ret ans.

Definition dlsym (ans : ptr) (handle : ptr) (symbol : string) : M ptr :=
  emit (C_dlsym handle symbol ans) ;; ret ans.

Definition wl_display_bind (ans : ptr) (dpy : ptr) (id : Z) (interface : ptr) : M ptr :=
  emit (C_wl_display_bind dpy id interface ans) ;; ret ans.

Definition wl_drm_add_listener (ans : Z) (proxy : ptr) : M Z :=
  emit (C_wl_drm_add_listener proxy ans) ;; ret ans.

Definition stat (ans : option Z) (path : string) : M (option Z) :=
  emit (C_stat path ans) ;; ret ans.

(** [open(path, O_RDWR)]: -1 on failure, the new descriptor otherwise. *)
Definition open (ans : option N) (path : string) : M Z :=
  emit (C_open path ans) ;;
  ret (match ans with Some n => Z.of_N n | None => -1 end).

Definition va_wayland_error (format device : string) : M unit :=
  emit (C_va_wayland_error format device).

(** [drmGetMagic(fd, &magic)]: the answer is the return value together with
    what [magic] holds afterwards (indeterminate when the call failed). *)
Definition drmGetMagic (ans : Z * Z) (fd : Z) : M (Z * Z) :=
  emit (C_drmGetMagic fd (fst ans) (snd ans)) ;; ret ans.

Definition wl_drm_authenticate (proxy : ptr) (magic : Z) : M unit :=
  emit (C_wl_drm_authenticate proxy magic).

Definition wl_drm_destroy (proxy : ptr) : M unit := emit (C_wl_drm_destroy proxy).
Definition dlclose (handle : ptr) : M unit := emit (C_dlclose handle).
Definition close (fd : Z) : M unit := emit (C_close fd).
Definition free (block : drm_state) : M unit := emit (C_free block).

Definition drmGetVersion (ans : option drmVersion) (fd : Z) : M (option drmVersion) :=
  emit (C_drmGetVersion fd ans) ;; ret ans.

Definition drmFreeVersion (v : drmVersion) : M unit := emit (C_drmFreeVersion v).

(** [strdup(s)]: a fresh copy of [s], or null when memory is exhausted. *)
Definition strdup (ok : bool) (s : string) : M (option string) :=
  let r := if ok then Some s else None in
  emit (C_strdup s r) ;; ret r.

(** [S_ISCHR(m)] of <sys/stat.h>: [(m & S_IFMT) == S_IFCHR], with
    [S_IFMT = 0170000] and [S_IFCHR = 0020000]. *)
Definition S_IFMT : Z := 61440.
Definition S_IFCHR : Z := 8192.
Definition S_ISCHR (m : Z) : bool := Z.land m S_IFMT =? S_IFCHR.

(** ** The listener callbacks *)

Definition LIBEGL_NAME : string := "libEGL.so.1".

Definition drm_handle_device (device : string) (os : os_answers) : M unit :=
  st <- stat (os_stat os) device ;;
  match st with
  | None => va_wayland_error "failed to identify %s: %s (errno %d)" device
  | Some st_mode =>
      if negb (S_ISCHR st_mode) then
        va_wayland_error "%s is not a device" device
      else
        r <- open (os_open os) device ;;
        store_drm_state (set_fd r) ;;
        d <- load_drm_state fd ;;
        if d <? 0 then
          va_wayland_error "failed to open %s: %s (errno %d)" device
        else
          m <- drmGetMagic (os_getmagic os) d ;;
          p <- get (fun c => drm (wl_drm_ctx c)) ;;
          wl_drm_authenticate p (snd m)
  end.

Definition drm_handle_format (format : Z) : M unit := ret tt.

Definition drm_handle_authenticated : M unit :=
  modify (upd_wl_drm (set_is_authenticated 1)) ;;
  store_drm_state (set_auth_type VA_DRM_AUTH_CUSTOM).

(** [drm_listener]: the callback run for each event of the bound object. *)
Definition drm_listener (ev : wl_drm_event) : M unit :=
  emit (C_callback ev) ;;
  match ev with
  | Ev_device device os => drm_handle_device device os
  | Ev_format format => drm_handle_format format
  | Ev_authenticated => drm_handle_authenticated
  end.

Fixpoint dispatch (evs : list wl_drm_event) : M unit :=
  match evs with
  | [] => ret tt
  | ev :: rest => drm_listener ev ;; dispatch rest
  end.

(** [wl_display_roundtrip(dpy)]: blocks until the compositor has answered;
    the events that arrive meanwhile, [evs], are dispatched to the listener.
    The source uses the call as a statement. *)
Definition wl_display_roundtrip (evs : list wl_drm_event) (dpy : ptr) : M unit :=
  emit (C_wl_display_roundtrip dpy) ;;
  dispatch evs.

(** ** The driver name mapper *)

Definition g_driver_name_map : list driver_name_map :=
  [ mk_driver_name_map (Some "i915") 4 (Some "i965");
    mk_driver_name_map (Some "pvrsrvkm") 8 (Some "pvr");
    mk_driver_name_map (Some "emgd") 4 (Some "emgd");
    mk_driver_name_map None 0 None ].

(** The character a C string holds at its start: the terminating NUL once
    the text is exhausted. *)
Definition char_at_start (s : string) : Z :=
  match s with
  | EmptyString => 0
  | String c _ => Z.of_N (N_of_ascii c)
  end.

Definition advance (s : string) : string :=
  match s with
  | EmptyString => EmptyString
  | String _ r => r
  end.

(** [strncmp(s1, s2, n)]: at most [n] characters are compared, as unsigned
    characters, and the comparison stops after a NUL. *)
Fixpoint strncmp (s1 s2 : string) (n : nat) : Z :=
  match n with
  | O => 0
  | S n' =>
      let c1 := char_at_start s1 in
      let c2 := char_at_start s2 in
      if c1 =? c2 then
        if c1 =? 0 then 0 else strncmp (advance s1) (advance s2) n'
      else c1 - c2
  end.

(** The conversion of an [int] to [size_t] that the call of [strncmp]
    makes of [m->key_len]: the value modulo 2^64, [size_t] being taken with
    the 64 bits it has on an LP64 system.  A negative length becomes a
    count beyond the length of any string. *)
Definition size_t_of_int (k : Z) : Z := k mod 2 ^ 64.

(** The loop of the resolver: [m] walks the array until the entry with a
    null key or until the test of the body breaks out; [None] is a walk past
    the end of the array. *)
Fixpoint scan_driver_name_map (tbl : list driver_name_map) (v : drmVersion)
  : option driver_name_map :=
  match tbl with
  | [] => None
  | m :: rest =>
      match key m with
      | None => Some m
      | Some k =>
          if (v_name_len v >=? key_len m)
             && (strncmp (v_name v) k (Z.to_nat (size_t_of_int (key_len m))) =? 0)
          then Some m
          else scan_driver_name_map rest v
      end
  end.

(** What the environment answers to the resolver. *)
Record name_env := mk_name_env {
  env_drmGetVersion : option drmVersion;
  env_strdup : bool
}.

(** The result is the status together with [*driver_name_ptr]. *)
Definition va_DisplayContextGetDriverName (e : name_env)
  : M (VAStatus * option string) :=
  d <- load_drm_state fd ;;
  drm_version <- drmGetVersion (env_drmGetVersion e) d ;;
  match drm_version with
  | None => ret (VA_STATUS_ERROR_UNKNOWN, None)
  | Some v =>
      match scan_driver_name_map g_driver_name_map v with
      | None => fault
      | Some m =>
          drmFreeVersion v ;;
          match name m with
          | None => ret (VA_STATUS_ERROR_UNKNOWN, None)
          | Some n =>
              driver_name <- strdup (env_strdup e) n ;;
              match driver_name with
              | None => ret (VA_STATUS_ERROR_ALLOCATION_FAILED, None)
              | Some s => ret (VA_STATUS_SUCCESS, Some s)
              end
          end
      end
  end.

(** ** The finalizer *)

Definition va_wayland_drm_finalize : M unit :=
  p <- get (fun c => drm (wl_drm_ctx c)) ;;
  (if p =? NULL then ret tt
   else wl_drm_destroy p ;; modify (upd_wl_drm (set_drm NULL))) ;;
  modify (upd_wl_drm (set_is_authenticated 0)) ;;
  h <- get (fun c => libEGL_handle (wl_drm_ctx c)) ;;
  (if h =? NULL then ret tt
   else dlclose h ;; modify (upd_wl_drm (set_libEGL_handle NULL))) ;;
  s <- get (fun c => ctx_drm_state (ctx c)) ;;
  match s with
  | None => ret tt
  | Some _ =>
      d <- load_drm_state fd ;;
      (if d >=? 0 then close d ;; store_drm_state (set_fd (-1)) else ret tt) ;;
      block <- load_drm_state (fun b => b) ;;
      free block ;;
      modify (set_ctx_drm_state None)
  end.

(** ** The initializer *)

(** What the environment answers to the initializer, call by call, and the
    events it delivers in the two round trips that follow the registration
    of the listener.  The round trip of the registry retry happens before
    any object is bound, so it reaches no callback of this file. *)
Record init_env := mk_init_env {
  env_calloc : bool;
  env_get_global : Z;
  env_get_global_retry : Z;
  env_dlopen : ptr;
  env_dlsym : ptr;
  env_bind : ptr;
  env_add_listener : Z;
  env_roundtrip_device : list wl_drm_event;
  env_roundtrip_auth : list wl_drm_event
}.

Definition va_wayland_drm_init (e : init_env) : M bool :=
  modify (upd_wl_drm (set_drm NULL)) ;;
  modify (upd_wl_drm (set_is_authenticated 0)) ;;
  modify (set_finalize (Some fn_va_wayland_drm_finalize)) ;;
  modify (set_vaGetDriverName (Some fn_va_DisplayContextGetDriverName)) ;;
  allocated <- calloc (env_calloc e) ;;
  if negb allocated then ret false else
  (* the fresh block is filled through the local pointer, then published *)
  modify (set_ctx_drm_state (Some (mk_drm_state (-1) 0))) ;;
  dpy <- get (fun c => native_dpy (ctx c)) ;;
  id <- wl_display_get_global (env_get_global e) dpy "wl_drm" 1 ;;
  id <- (if id =? 0 then
           wl_display_roundtrip [] dpy ;;
           wl_display_get_global (env_get_global_retry e) dpy "wl_drm" 1
         else ret id) ;;
  if id =? 0 then ret false else
  h <- dlopen (env_dlopen e) LIBEGL_NAME ;;
  modify (upd_wl_drm (set_libEGL_handle h)) ;;
  if h =? NULL then ret false else
  i <- dlsym (env_dlsym e) h "wl_drm_interface" ;;
  modify (upd_wl_drm (set_drm_interface i)) ;;
  if i =? NULL then ret false else
  p <- wl_display_bind (env_bind e) dpy id i ;;
  modify (upd_wl_drm (set_drm p)) ;;
  if p =? NULL then ret false else
  wl_drm_add_listener (env_add_listener e) p ;;
  wl_display_roundtrip (env_roundtrip_device e) dpy ;;
  d <- load_drm_state fd ;;
  if d <? 0 then ret false else
  wl_display_roundtrip (env_roundtrip_auth e) dpy ;;
  a <- get (fun c => is_authenticated (wl_drm_ctx c)) ;;
  if a =? 0 then ret false else
  ret true.

(** * Vocabulary of the properties

    Predicates over the model, the outcome of one run of each function
    written as plain data, and sample environments. *)

(** ** The prefix test of the resolver *)

(** A key holds no NUL before its terminator. *)
Fixpoint no_nul (k : string) : Prop :=
  match k with
  | EmptyString => True
  | String c r => N_of_ascii c <> 0%N /\ no_nul r
  end.

(** The test of the loop body, as the source writes it. *)
Definition entry_test (v : drmVersion) (m : driver_name_map) (k : string) : bool :=
  (v_name_len v >=? key_len m)
  && (strncmp (v_name v) k (Z.to_nat (size_t_of_int (key_len m))) =? 0).

(** A match: the reported name is at least as long as the prefix of the
    entry, and its first bytes, as many as the prefix has, are that prefix. *)
Definition entry_matches (v : drmVersion) (m : driver_name_map) : Prop :=
  exists k, key m = Some k /\
            key_len m <= v_name_len v /\
            substring 0 (Z.to_nat (key_len m)) (v_name v) = k.

(** An entry is the first match when no entry above it matches. *)
Definition first_match (v : drmVersion) (i : nat) (m : driver_name_map) : Prop :=
  nth_error g_driver_name_map i = Some m /\
  entry_matches v m /\
  forall j m', (j < i)%nat -> nth_error g_driver_name_map j = Some m' ->
               ~ entry_matches v m'.

(** The entries of the shipped table, and its terminator. *)
Definition e_i915 := mk_driver_name_map (Some "i915") 4 (Some "i965").
Definition e_pvrsrvkm := mk_driver_name_map (Some "pvrsrvkm") 8 (Some "pvr").
Definition e_emgd := mk_driver_name_map (Some "emgd") 4 (Some "emgd").
Definition e_end := mk_driver_name_map None 0 None.

(** ** One run of the resolver *)

(** The entry at which the walk over the shipped table stops. *)
Definition selected_entry (v : drmVersion) : driver_name_map :=
  if entry_test v e_i915 "i915" then e_i915
  else if entry_test v e_pvrsrvkm "pvrsrvkm" then e_pvrsrvkm
  else if entry_test v e_emgd "emgd" then e_emgd
  else e_end.

(** Status, output pointer and calls of a run started with descriptor [d]. *)
Definition name_run (e : name_env) (d : Z)
  : (VAStatus * option string) * list call :=
  match env_drmGetVersion e with
  | None => ((VA_STATUS_ERROR_UNKNOWN, None), [C_drmGetVersion d None])
  | Some v =>
      match name (selected_entry v) with
      | None => ((VA_STATUS_ERROR_UNKNOWN, None),
                 [C_drmGetVersion d (Some v); C_drmFreeVersion v])
      | Some n =>
          if env_strdup e then
            ((VA_STATUS_SUCCESS, Some n),
             [C_drmGetVersion d (Some v); C_drmFreeVersion v; C_strdup n (Some n)])
          else
            ((VA_STATUS_ERROR_ALLOCATION_FAILED, None),
             [C_drmGetVersion d (Some v); C_drmFreeVersion v; C_strdup n None])
      end
  end.

(** The record libdrm hands back for a kernel driver called [text]. *)
Definition reported (text : string) : drmVersion :=
  mk_drmVersion (Z.of_nat (String.length text)) text.

(** A context as the host hands it to the initializer (zeroed, with its
    display), and one as a successful initialization leaves it. *)
Definition fresh_context : VADisplayContext :=
  mk_display_ctx (mk_driver_ctx 4096 None)
    (mk_wl_ctx None (mk_wl_drm_ctx NULL 0 NULL NULL)) None.

Definition ready_context : VADisplayContext :=
  mk_display_ctx (mk_driver_ctx 4096 (Some (mk_drm_state 5 VA_DRM_AUTH_CUSTOM)))
    (mk_wl_ctx (Some fn_va_wayland_drm_finalize) (mk_wl_drm_ctx 8192 1 12288 16384))
    (Some fn_va_DisplayContextGetDriverName).

(** A call that takes or gives back a driver-metadata record. *)
Definition version_call (c : call) : bool :=
  match c with
  | C_drmGetVersion _ _ | C_drmFreeVersion _ => true
  | _ => false
  end.

(** ** One run of the finalizer *)

(** The releases the finalizer performs on a context, in order. *)
Definition finalize_calls (c : VADisplayContext) : list call :=
  ((if drm (wl_drm_ctx c) =? NULL then [] else [C_wl_drm_destroy (drm (wl_drm_ctx c))])
   ++ (if libEGL_handle (wl_drm_ctx c) =? NULL then []
       else [C_dlclose (libEGL_handle (wl_drm_ctx c))])
   ++ match ctx_drm_state (ctx c) with
      | None => []
      | Some s => if fd s >=? 0 then [C_close (fd s); C_free (set_fd (-1) s)]
                  else [C_free s]
      end)%list.

(** The context the finalizer leaves. *)
Definition finalized (c : VADisplayContext) : VADisplayContext :=
  mk_display_ctx (mk_driver_ctx (native_dpy (ctx c)) None)
    (mk_wl_ctx (finalize (opaque c))
       (mk_wl_drm_ctx NULL 0 NULL (drm_interface (wl_drm_ctx c))))
    (vaGetDriverName c).

(** ** One run of a callback, and of a round trip *)

(** The value a device advertisement stores in the descriptor, if its
    handling gets as far as [open]. *)
Definition stored_fd (ev : wl_drm_event) : option Z :=
  match ev with
  | Ev_device _ os =>
      match os_stat os with
      | Some m => if S_ISCHR m
                  then Some (match os_open os with Some n => Z.of_N n | None => -1 end)
                  else None
      | None => None
      end
  | _ => None
  end.

Definition map_drm_state (f : drm_state -> drm_state) (c : VADisplayContext)
  : VADisplayContext :=
  set_ctx_drm_state (option_map f (ctx_drm_state (ctx c))) c.

(** The context a callback leaves. *)
Definition after_event (ev : wl_drm_event) (c : VADisplayContext) : VADisplayContext :=
  match ev with
  | Ev_authenticated =>
      map_drm_state (set_auth_type VA_DRM_AUTH_CUSTOM)
        (upd_wl_drm (set_is_authenticated 1) c)
  | Ev_format _ => c
  | Ev_device _ _ =>
      match stored_fd ev with
      | Some r => map_drm_state (set_fd r) c
      | None => c
      end
  end.

(** The external calls of a callback. *)
Definition handler_calls (ev : wl_drm_event) (c : VADisplayContext) : list call :=
  match ev with
  | Ev_device device os =>
      match os_stat os with
      | None => [C_stat device None;
                 C_va_wayland_error "failed to identify %s: %s (errno %d)" device]
      | Some m =>
          if S_ISCHR m then
            C_stat device (Some m) :: C_open device (os_open os) ::
            match os_open os with
            | None => [C_va_wayland_error "failed to open %s: %s (errno %d)" device]
            | Some n => [C_drmGetMagic (Z.of_N n) (fst (os_getmagic os)) (snd (os_getmagic os));
                         C_wl_drm_authenticate (drm (wl_drm_ctx c)) (snd (os_getmagic os))]
            end
          else [C_stat device (Some m); C_va_wayland_error "%s is not a device" device]
      end
  | _ => []
  end.

Definition after_events (evs : list wl_drm_event) (c : VADisplayContext)
  : VADisplayContext :=
  fold_left (fun c ev => after_event ev c) evs c.

Fixpoint dispatch_calls (evs : list wl_drm_event) (c : VADisplayContext) : list call :=
  match evs with
  | [] => []
  | ev :: rest =>
      (C_callback ev :: handler_calls ev c ++ dispatch_calls rest (after_event ev c))%list
  end.

(** ** One run of the initializer *)

Definition registry_id (e : init_env) : Z :=
  if env_get_global e =? 0 then env_get_global_retry e else env_get_global e.

Definition registry_calls (e : init_env) (dpy : ptr) : list call :=
  C_wl_display_get_global dpy "wl_drm" 1 (env_get_global e) ::
  (if env_get_global e =? 0 then
     [C_wl_display_roundtrip dpy;
      C_wl_display_get_global dpy "wl_drm" 1 (env_get_global_retry e)]
   else []).

(** The context after each stage of the initializer. *)
Definition init_entry (c : VADisplayContext) : VADisplayContext :=
  set_vaGetDriverName (Some fn_va_DisplayContextGetDriverName)
    (set_finalize (Some fn_va_wayland_drm_finalize)
       (upd_wl_drm (set_is_authenticated 0) (upd_wl_drm (set_drm NULL) c))).

Definition init_allocated (c : VADisplayContext) : VADisplayContext :=
  set_ctx_drm_state (Some (mk_drm_state (-1) 0)) (init_entry c).

Definition init_loaded (e : init_env) (c : VADisplayContext) : VADisplayContext :=
  upd_wl_drm (set_libEGL_handle (env_dlopen e)) (init_allocated c).

Definition init_resolved (e : init_env) (c : VADisplayContext) : VADisplayContext :=
  upd_wl_drm (set_drm_interface (env_dlsym e)) (init_loaded e c).

Definition init_bound (e : init_env) (c : VADisplayContext) : VADisplayContext :=
  upd_wl_drm (set_drm (env_bind e)) (init_resolved e c).

Definition init_advertised (e : init_env) (c : VADisplayContext) : VADisplayContext :=
  after_events (env_roundtrip_device e) (init_bound e c).

Definition init_confirmed (e : init_env) (c : VADisplayContext) : VADisplayContext :=
  after_events (env_roundtrip_auth e) (init_advertised e c).

(** The calls made up to the end of each stage. *)
Definition calls_registry (e : init_env) (c : VADisplayContext) : list call :=
  C_calloc true :: registry_calls e (native_dpy (ctx c)).

Definition calls_loaded (e : init_env) (c : VADisplayContext) : list call :=
  (calls_registry e c ++ [C_dlopen LIBEGL_NAME (env_dlopen e)])%list.

Definition calls_resolved (e : init_env) (c : VADisplayContext) : list call :=
  (calls_loaded e c ++ [C_dlsym (env_dlopen e) "wl_drm_interface" (env_dlsym e)])%list.

Definition calls_bound (e : init_env) (c : VADisplayContext) : list call :=
  (calls_resolved e c ++
   [C_wl_display_bind (native_dpy (ctx c)) (registry_id e) (env_dlsym e) (env_bind e)])%list.

Definition calls_advertised (e : init_env) (c : VADisplayContext) : list call :=
  (calls_bound e c ++
   C_wl_drm_add_listener (env_bind e) (env_add_listener e) ::
   C_wl_display_roundtrip (native_dpy (ctx c)) ::
   dispatch_calls (env_roundtrip_device e) (init_bound e c))%list.

Definition calls_confirmed (e : init_env) (c : VADisplayContext) : list call :=
  (calls_advertised e c ++
   C_wl_display_roundtrip (native_dpy (ctx c)) ::
   dispatch_calls (env_roundtrip_auth e) (init_advertised e c))%list.

Definition current_fd (c : VADisplayContext) : Z :=
  match ctx_drm_state (ctx c) with
  | Some s => fd s
  | None => -1
  end.

(** Return value, context and calls of a run of the initializer. *)
Definition init_run (e : init_env) (c : VADisplayContext)
  : bool * VADisplayContext * list call :=
  if negb (env_calloc e) then (false, init_entry c, [C_calloc false])
  else if registry_id e =? 0 then (false, init_allocated c, calls_registry e c)
  else if env_dlopen e =? NULL then (false, init_loaded e c, calls_loaded e c)
  else if env_dlsym e =? NULL then (false, init_resolved e c, calls_resolved e c)
  else if env_bind e =? NULL then (false, init_bound e c, calls_bound e c)
  else if current_fd (init_advertised e c) <? 0
       then (false, init_advertised e c, calls_advertised e c)
  else if is_authenticated (wl_drm_ctx (init_confirmed e c)) =? 0
       then (false, init_confirmed e c, calls_confirmed e c)
  else (true, init_confirmed e c, calls_confirmed e c).

(** ** What the callbacks leave alone, and what they change *)

(** The fields no callback writes. *)
Definition same_frame (c c' : VADisplayContext) : Prop :=
  native_dpy (ctx c') = native_dpy (ctx c) /\
  finalize (opaque c') = finalize (opaque c) /\
  vaGetDriverName c' = vaGetDriverName c /\
  drm (wl_drm_ctx c') = drm (wl_drm_ctx c) /\
  libEGL_handle (wl_drm_ctx c') = libEGL_handle (wl_drm_ctx c) /\
  drm_interface (wl_drm_ctx c') = drm_interface (wl_drm_ctx c).

(** A device node that cannot be used: the path does not exist, is not a
    character device, or cannot be opened. *)
Definition device_unusable (os : os_answers) : Prop :=
  os_stat os = None \/
  (exists m, os_stat os = Some m /\ S_ISCHR m = false) \/
  os_open os = None.

Definition no_usable_device (evs : list wl_drm_event) : Prop :=
  forall device os, In (Ev_device device os) evs -> device_unusable os.

(** The descriptor is unset: the DRM state exists and holds -1. *)
Definition fd_unset (c : VADisplayContext) : Prop :=
  exists s, ctx_drm_state (ctx c) = Some s /\ fd s = -1.

(** ** Sample environments *)

(** A device node that opens as descriptor 5, one that does not exist, one
    on which [drmGetMagic] fails with [-EACCES], and compositors that
    advertise them. *)
Definition card0 : os_answers := mk_os_answers (Some 8624) (Some 5%N) (0, 42).
Definition missing_node : os_answers := mk_os_answers None None (0, 0).
Definition card0_no_magic : os_answers := mk_os_answers (Some 8624) (Some 5%N) (-13, 0).

Definition env_success : init_env :=
  mk_init_env true 7 0 12288 16384 8192 0
    [Ev_device "/dev/dri/card0" card0] [Ev_authenticated].

Definition env_silent_compositor : init_env :=
  mk_init_env true 7 0 12288 16384 8192 0
    [Ev_device "/dev/dri/card0" card0] [Ev_format 875713112].

Definition env_missing_node : init_env :=
  mk_init_env true 7 0 12288 16384 8192 0
    [Ev_device "/dev/dri/card9" missing_node] [Ev_authenticated].

Definition env_no_magic : init_env :=
  mk_init_env true 7 0 12288 16384 8192 0
    [Ev_device "/dev/dri/card0" card0_no_magic] [Ev_authenticated].

Definition env_no_memory : init_env :=
  mk_init_env false 0 0 0 0 0 0 [] [].

(** ** Which results the initializer examines *)

(** A logged call whose answer reports a failure. *)
Definition call_failed (c : call) : bool :=
  match c with
  | C_calloc ok => negb ok
  | C_wl_display_get_global _ _ _ id => id =? 0
  | C_dlopen _ h => h =? NULL
  | C_dlsym _ _ a => a =? NULL
  | C_wl_display_bind _ _ _ p => p =? NULL
  | C_wl_drm_add_listener _ r => r <? 0
  | C_stat _ None => true
  | C_open _ None => true
  | C_drmGetMagic _ r _ => negb (r =? 0)
  | _ => false
  end.

(** ** The order of the steps of the initializer *)

Definition is_get_global (c : call) : bool :=
  match c with C_wl_display_get_global _ _ _ _ => true | _ => false end.

Definition is_dlopen (c : call) : bool :=
  match c with C_dlopen _ _ => true | _ => false end.

Definition is_dlsym (c : call) : bool :=
  match c with C_dlsym _ _ _ => true | _ => false end.

(** In the log [l], every call of the kind [P] comes before every call of
    the kind [Q]. *)
Definition precedes (P Q : call -> bool) (l : list call) : Prop :=
  forall i j x y,
    nth_error l i = Some x -> nth_error l j = Some y ->
    P x = true -> Q y = true -> (i < j)%nat.

(** The calls that run inside a round trip are none of the three steps. *)
Definition no_step (c : call) : bool :=
  negb (is_get_global c) && negb (is_dlopen c) && negb (is_dlsym c).

(** The calls that follow the registry query, in a full run. *)
Definition calls_after_registry (e : init_env) (c : VADisplayContext) : list call :=
  (C_dlopen LIBEGL_NAME (env_dlopen e) ::
   C_dlsym (env_dlopen e) "wl_drm_interface" (env_dlsym e) ::
   C_wl_display_bind (native_dpy (ctx c)) (registry_id e) (env_dlsym e) (env_bind e) ::
   C_wl_drm_add_listener (env_bind e) (env_add_listener e) ::
   C_wl_display_roundtrip (native_dpy (ctx c)) ::
   dispatch_calls (env_roundtrip_device e) (init_bound e c) ++
   C_wl_display_roundtrip (native_dpy (ctx c)) ::
   dispatch_calls (env_roundtrip_auth e) (init_advertised e c))%list.

(** ** The invariant of the DRM state *)

(** A descriptor that is set is one that [open] returned, and an
    authentication type that is set was stored by the confirmation
    callback. *)
Definition drm_invariant (ds : option drm_state) (l : list call) : Prop :=
  forall s, ds = Some s ->
    (0 <= fd s -> exists path n, In (C_open path (Some n)) l /\ fd s = Z.of_N n) /\
    (auth_type s <> 0 -> In (C_callback Ev_authenticated) l).

Definition drm_state_invariant (st : State) : Prop :=
  drm_invariant (ctx_drm_state (ctx (dc st))) (log st).

(** The states the initializer and its callbacks can reach from a context
    that has no DRM state yet. *)
Inductive reachable : State -> Prop :=
| reach_start (c : VADisplayContext) (l : list call) :
    ctx_drm_state (ctx c) = None -> reachable (mk_State c l)
| reach_init (e : init_env) (st : State) (r : bool) (st' : State) :
    reachable st -> va_wayland_drm_init e st = Some (r, st') -> reachable st'
| reach_callback (ev : wl_drm_event) (st st' : State) :
    reachable st -> drm_listener ev st = Some (tt, st') -> reachable st'.

(** ** Further vocabulary: the resolver *)

(** The backend names the shipped table can give. *)
Definition backend_names : list string := ["i965"; "pvr"; "emgd"].

(** ** Further vocabulary: the initializer, the callbacks, the finalizer *)

Definition is_authenticated_event (ev : wl_drm_event) : bool :=
  match ev with Ev_authenticated => true | _ => false end.

Definition is_format_event (ev : wl_drm_event) : bool :=
  match ev with Ev_format _ => true | _ => false end.

Definition is_device_event (ev : wl_drm_event) : bool :=
  match ev with Ev_device _ _ => true | _ => false end.

(** The descriptor the DRM state holds after the callbacks of [evs] have
    run, when it held [d] before: each advertisement that gets as far as
    [open] overwrites it. *)
Definition fd_after (evs : list wl_drm_event) (d : Z) : Z :=
  fold_left (fun d ev => match stored_fd ev with Some r => r | None => d end) evs d.

(** The authentication type and the flag after the callbacks of [evs]. *)
Definition auth_type_after (evs : list wl_drm_event) (a : Z) : Z :=
  if existsb is_authenticated_event evs then VA_DRM_AUTH_CUSTOM else a.

Definition flag_after (evs : list wl_drm_event) (a : Z) : Z :=
  if existsb is_authenticated_event evs then 1 else a.

(** The flag and the authentication type agree: both unset, or both set. *)
Definition auth_coupled (c : VADisplayContext) : Prop :=
  exists s, ctx_drm_state (ctx c) = Some s /\
            ((is_authenticated (wl_drm_ctx c) = 0 /\ auth_type s = 0) \/
             (is_authenticated (wl_drm_ctx c) = 1 /\ auth_type s = VA_DRM_AUTH_CUSTOM)).

(** A call that gives a resource back. *)
Definition is_release (c : call) : bool :=
  match c with
  | C_wl_drm_destroy _ | C_dlclose _ | C_close _ | C_free _ => true
  | _ => false
  end.

(** What a call made inside a callback looks like, [p] being the proxy the
    context holds: requests go to that proxy, and [drmGetMagic] is asked
    about a descriptor that is open. *)
Definition callback_call (p : ptr) (x : call) : Prop :=
  match x with
  | C_callback _ | C_stat _ _ | C_open _ _ | C_va_wayland_error _ _ => True
  | C_drmGetMagic d _ _ => 0 <= d
  | C_wl_drm_authenticate q _ => q = p
  | _ => False
  end.

(** The descriptor that the calls of [tr] leave stored, when [d] was
    stored before them: the result of the last [open] among them, -1 when
    that [open] failed. *)
Definition last_open (tr : list call) (d : Z) : Z :=
  fold_left (fun d x =>
               match x with
               | C_open _ res => match res with Some n => Z.of_N n | None => -1 end
               | _ => d
               end) tr d.

(** A compositor that advertises two device nodes, one after the other,
    and confirms the authentication. *)
Definition card1 : os_answers := mk_os_answers (Some 8624) (Some 6%N) (0, 43).

Definition env_two_devices : init_env :=
  mk_init_env true 7 0 12288 16384 8192 0
    [Ev_device "/dev/dri/card0" card0; Ev_device "/dev/dri/card1" card1]
    [Ev_authenticated].

(** A context that holds no resource the finalizer would release: no
    library handle and no DRM state (the proxy is reset by the initializer
    itself). *)
Definition holds_nothing (c : VADisplayContext) : Prop :=
  libEGL_handle (wl_drm_ctx c) = NULL /\ ctx_drm_state (ctx c) = None.

(** The environment with the pixel-format advertisements taken out of both
    round trips, and the log entries that record their callback. *)
Definition not_format (ev : wl_drm_event) : bool := negb (is_format_event ev).

Definition without_formats (e : init_env) : init_env :=
  mk_init_env (env_calloc e) (env_get_global e) (env_get_global_retry e)
    (env_dlopen e) (env_dlsym e) (env_bind e) (env_add_listener e)
    (filter not_format (env_roundtrip_device e))
    (filter not_format (env_roundtrip_auth e)).

Definition not_format_callback (x : call) : bool :=
  match x with
  | C_callback ev => not_format ev
  | _ => true
  end.

Definition is_error (x : call) : bool :=
  match x with C_va_wayland_error _ _ => true | _ => false end.

Definition is_authenticate (x : call) : bool :=
  match x with C_wl_drm_authenticate _ _ => true | _ => false end.

Definition is_open (x : call) : bool :=
  match x with C_open _ _ => true | _ => false end.

Definition is_roundtrip (x : call) : bool :=
  match x with C_wl_display_roundtrip _ => true | _ => false end.

(** * Properties *)

(** ** The prefix test of the resolver *)

Lemma substring_0_0 (s : string) : substring 0 0 s = EmptyString.
Proof. destruct s; reflexivity. Qed.

Lemma N_of_ascii_inj (a b : ascii) : N_of_ascii a = N_of_ascii b -> a = b.
Proof.
  intro H. rewrite <- (ascii_N_embedding a), <- (ascii_N_embedding b).
  now rewrite H.
Qed.

(** [strncmp] over the whole length of a key answers 0 exactly when the
    text starts with the key. *)
Lemma strncmp_key (k : string) :
  no_nul k ->
  forall s, strncmp s k (String.length k) = 0 <->
            substring 0 (String.length k) s = k.
Proof.
  induction k as [|c k IH]; intros Hk s.
  - simpl. rewrite substring_0_0. tauto.
  - destruct Hk as [Hc Hk]. specialize (IH Hk).
    destruct s as [|a s]; cbn [String.length strncmp char_at_start advance substring].
    + assert (Hne : (0 =? Z.of_N (N_of_ascii c)) = false).
      { apply Z.eqb_neq. revert Hc. generalize (N_of_ascii c). lia. }
      rewrite Hne. split; [|discriminate].
      revert Hc. generalize (N_of_ascii c). lia.
    + destruct (Z.eqb_spec (Z.of_N (N_of_ascii a)) (Z.of_N (N_of_ascii c))) as [E|E].
      * apply N2Z.inj in E. apply N_of_ascii_inj in E. subst a.
        assert (Hne : (Z.of_N (N_of_ascii c) =? 0) = false).
        { apply Z.eqb_neq. revert Hc. generalize (N_of_ascii c). lia. }
        rewrite Hne, IH. split; [intros ->; reflexivity | intro H; injection H; auto].
      * split; [lia | intro H; injection H; intros _ Hac; subst a; contradiction].
Qed.

Lemma size_t_of_length (n : nat) :
  Z.of_nat n < 2 ^ 64 -> size_t_of_int (Z.of_nat n) = Z.of_nat n.
Proof. intro H. unfold size_t_of_int. apply Z.mod_small. lia. Qed.

Lemma entry_test_matches (v : drmVersion) (m : driver_name_map) (k : string) :
  key m = Some k -> no_nul k -> key_len m = Z.of_nat (String.length k) ->
  key_len m < 2 ^ 64 ->
  entry_test v m k = true <-> entry_matches v m.
Proof.
  intros Hkey Hk Hlen Hsmall. unfold entry_test, entry_matches.
  rewrite Hlen in Hsmall.
  rewrite andb_true_iff, Z.geb_le, Z.eqb_eq, Hlen, (size_t_of_length _ Hsmall),
    Nat2Z.id, (strncmp_key k Hk).
  split.
  - intros [H1 H2]. exists k. repeat split; assumption.
  - intros [k' [E [H1 H2]]]. rewrite Hkey in E. injection E as E. subst k'.
    split; assumption.
Qed.

Lemma table_entries : g_driver_name_map = [e_i915; e_pvrsrvkm; e_emgd; e_end].
Proof. reflexivity. Qed.

Lemma test_i915 v : entry_test v e_i915 "i915" = true <-> entry_matches v e_i915.
Proof.
  apply entry_test_matches;
    [reflexivity | cbn; repeat split; discriminate | reflexivity | reflexivity].
Qed.

Lemma test_pvrsrvkm v :
  entry_test v e_pvrsrvkm "pvrsrvkm" = true <-> entry_matches v e_pvrsrvkm.
Proof.
  apply entry_test_matches;
    [reflexivity | cbn; repeat split; discriminate | reflexivity | reflexivity].
Qed.

Lemma test_emgd v : entry_test v e_emgd "emgd" = true <-> entry_matches v e_emgd.
Proof.
  apply entry_test_matches;
    [reflexivity | cbn; repeat split; discriminate | reflexivity | reflexivity].
Qed.

Lemma end_no_match v : ~ entry_matches v e_end.
Proof. intros [k [H _]]. discriminate. Qed.

(** The walk over the shipped table, test by test. *)
Lemma scan_table (v : drmVersion) :
  scan_driver_name_map g_driver_name_map v =
  Some (if entry_test v e_i915 "i915" then e_i915
        else if entry_test v e_pvrsrvkm "pvrsrvkm" then e_pvrsrvkm
        else if entry_test v e_emgd "emgd" then e_emgd
        else e_end).
Proof.
  unfold g_driver_name_map, scan_driver_name_map, key.
  fold e_i915 e_pvrsrvkm e_emgd e_end.
  change (mk_driver_name_map (Some "i915") 4 (Some "i965")) with e_i915.
  fold (entry_test v e_i915 "i915") (entry_test v e_pvrsrvkm "pvrsrvkm")
       (entry_test v e_emgd "emgd").
  destruct (entry_test v e_i915 "i915"); [reflexivity|].
  destruct (entry_test v e_pvrsrvkm "pvrsrvkm"); [reflexivity|].
  destruct (entry_test v e_emgd "emgd"); reflexivity.
Qed.

(** ** One run of the resolver *)

Lemma GetDriverName_run (e : name_env) (st : State) (s : drm_state) :
  ctx_drm_state (ctx (dc st)) = Some s ->
  va_DisplayContextGetDriverName e st =
  Some (fst (name_run e (fd s)),
        mk_State (dc st) (log st ++ snd (name_run e (fd s)))).
Proof.
  intro Hs.
  unfold va_DisplayContextGetDriverName, name_run, load_drm_state, drmGetVersion,
    drmFreeVersion, strdup, bind, get, emit, ret. cbn [dc log].
  rewrite Hs. cbn [dc log].
  destruct (env_drmGetVersion e) as [v|]; [|reflexivity].
  rewrite scan_table. fold (selected_entry v). cbn [dc log].
  destruct (name (selected_entry v)) as [n|]; cbn [dc log fst snd].
  - destruct (env_strdup e); cbn [dc log fst snd];
      now rewrite <- !app_assoc.
  - now rewrite <- !app_assoc.
Qed.

Lemma GetDriverName_null (e : name_env) (st : State) :
  ctx_drm_state (ctx (dc st)) = None ->
  va_DisplayContextGetDriverName e st = None.
Proof.
  intro Hs.
  unfold va_DisplayContextGetDriverName, load_drm_state, bind, get, fault.
  now rewrite Hs.
Qed.

(** Which entry the walk selects, in terms of matches. *)
Lemma selected_first_match (v : drmVersion) (n : string) :
  name (selected_entry v) = Some n <->
  exists i m, first_match v i m /\ name m = Some n.
Proof.
  unfold selected_entry, first_match. rewrite table_entries.
  pose proof (test_i915 v) as T1. pose proof (test_pvrsrvkm v) as T2.
  pose proof (test_emgd v) as T3. pose proof (end_no_match v) as T4.
  split.
  - destruct (entry_test v e_i915 "i915") eqn:E1.
    { intro H. exists 0%nat, e_i915. repeat split; [now apply T1 | lia | exact H]. }
    destruct (entry_test v e_pvrsrvkm "pvrsrvkm") eqn:E2.
    { intro H. exists 1%nat, e_pvrsrvkm. repeat split; [now apply T2 | | exact H].
      intros j m' Hj Hm'. destruct j as [|j]; [|lia]. injection Hm' as <-.
      intro Hm. apply T1 in Hm. discriminate. }
    destruct (entry_test v e_emgd "emgd") eqn:E3.
    { intro H. exists 2%nat, e_emgd. repeat split; [now apply T3 | | exact H].
      intros j m' Hj Hm'. destruct j as [|[|j]]; [| |lia]; injection Hm' as <-;
        intro Hm; [apply T1 in Hm | apply T2 in Hm]; discriminate. }
    discriminate.
  - intros [i [m [[Hi [Hm Hfirst]] Hn]]].
    destruct i as [|[|[|[|i]]]]; cbn in Hi.
    + injection Hi as <-. apply T1 in Hm. now rewrite Hm.
    + injection Hi as <-.
      destruct (entry_test v e_i915 "i915") eqn:E1.
      { exfalso. apply (Hfirst 0%nat e_i915); [lia | reflexivity | now apply T1]. }
      apply T2 in Hm. now rewrite Hm.
    + injection Hi as <-.
      destruct (entry_test v e_i915 "i915") eqn:E1.
      { exfalso. apply (Hfirst 0%nat e_i915); [lia | reflexivity | now apply T1]. }
      destruct (entry_test v e_pvrsrvkm "pvrsrvkm") eqn:E2.
      { exfalso. apply (Hfirst 1%nat e_pvrsrvkm); [lia | reflexivity | now apply T2]. }
      apply T3 in Hm. now rewrite Hm.
    + injection Hi as <-. contradiction.
    + destruct i; discriminate.
Qed.

Lemma selected_none (v : drmVersion) :
  name (selected_entry v) = None <->
  forall m, In m g_driver_name_map -> ~ entry_matches v m.
Proof.
  unfold selected_entry. rewrite table_entries.
  pose proof (test_i915 v) as T1. pose proof (test_pvrsrvkm v) as T2.
  pose proof (test_emgd v) as T3. pose proof (end_no_match v) as T4.
  split.
  - destruct (entry_test v e_i915 "i915") eqn:E1; [discriminate|].
    destruct (entry_test v e_pvrsrvkm "pvrsrvkm") eqn:E2; [discriminate|].
    destruct (entry_test v e_emgd "emgd") eqn:E3; [discriminate|].
    intros _ m [<-|[<-|[<-|[<-|[]]]]] Hm; auto;
      [apply T1 in Hm | apply T2 in Hm | apply T3 in Hm]; discriminate.
  - intro H.
    destruct (entry_test v e_i915 "i915") eqn:E1.
    { exfalso. apply (H e_i915); [cbn; auto | now apply T1]. }
    destruct (entry_test v e_pvrsrvkm "pvrsrvkm") eqn:E2.
    { exfalso. apply (H e_pvrsrvkm); [cbn; auto | now apply T2]. }
    destruct (entry_test v e_emgd "emgd") eqn:E3.
    { exfalso. apply (H e_emgd); [cbn; auto | now apply T3]. }
    reflexivity.
Qed.

Lemma substring_prefix (k rest : string) :
  substring 0 (String.length k) (k ++ rest) = k.
Proof.
  induction k as [|c k IH]; cbn; [apply substring_0_0 | now rewrite IH].
Qed.

Lemma reported_i915 (rest : string) :
  entry_test (reported ("i915" ++ rest)) e_i915 "i915" = true.
Proof.
  apply test_i915. exists "i915". split; [reflexivity|]. split.
  - cbn -[Z.of_nat]. lia.
  - apply (substring_prefix "i915").
Qed.

Lemma reported_pvrsrvkm (rest : string) :
  selected_entry (reported ("pvrsrvkm" ++ rest)) = e_pvrsrvkm.
Proof.
  unfold selected_entry.
  destruct (entry_test _ e_i915 "i915") eqn:E1.
  { apply test_i915 in E1. destruct E1 as [k [Hk [_ H]]]. injection Hk as <-.
    cbv in H. discriminate. }
  assert (E2 : entry_test (reported ("pvrsrvkm" ++ rest)) e_pvrsrvkm "pvrsrvkm" = true).
  { apply test_pvrsrvkm. exists "pvrsrvkm". split; [reflexivity|]. split.
    - cbn -[Z.of_nat]. lia.
    - apply (substring_prefix "pvrsrvkm"). }
  now rewrite E2.
Qed.

Lemma reported_emgd (rest : string) :
  selected_entry (reported ("emgd" ++ rest)) = e_emgd.
Proof.
  unfold selected_entry.
  destruct (entry_test _ e_i915 "i915") eqn:E1.
  { apply test_i915 in E1. destruct E1 as [k [Hk [_ H]]]. injection Hk as <-.
    cbv in H. discriminate. }
  destruct (entry_test _ e_pvrsrvkm "pvrsrvkm") eqn:E2.
  { apply test_pvrsrvkm in E2. destruct E2 as [k [Hk [_ H]]]. injection Hk as <-.
    cbv in H. discriminate. }
  assert (E3 : entry_test (reported ("emgd" ++ rest)) e_emgd "emgd" = true).
  { apply test_emgd. exists "emgd". split; [reflexivity|]. split.
    - cbn -[Z.of_nat]. lia.
    - apply (substring_prefix "emgd"). }
  now rewrite E3.
Qed.

Lemma nouveau_unmatched (len : Z) :
  selected_entry (mk_drmVersion len "nouveau") = e_end.
Proof.
  unfold selected_entry, entry_test. cbn.
  rewrite !andb_false_r. reflexivity.
Qed.

(** C1, as the code has it.  When the kernel reports a driver name,
    [va_DisplayContextGetDriverName] returns the mapped backend name if and
    only if the copy of that name can be allocated and the reported name is
    at least as long as the prefix of some table entry and starts with that
    prefix, the first such entry from the top of the table giving the name;
    when an entry matches and the copy cannot be allocated it returns the
    allocation-failure status and a null name; it returns the
    unknown-error status exactly when no entry matches.  In particular,
    with the copy allocated, a name starting with i915 gives i965, with
    pvrsrvkm gives pvr and with emgd gives emgd, and nouveau gives the
    unknown-error status in every case. *)
Theorem GetDriverName_first_prefix_match
  (e : name_env) (st : State) (s : drm_state) (v : drmVersion)
  (Hstate : ctx_drm_state (ctx (dc st)) = Some s)
  (Hquery : env_drmGetVersion e = Some v) :
  exists r st',
    va_DisplayContextGetDriverName e st = Some (r, st') /\
    (forall n, r = (VA_STATUS_SUCCESS, Some n) <->
               env_strdup e = true /\
               exists i m, first_match v i m /\ name m = Some n) /\
    (r = (VA_STATUS_ERROR_ALLOCATION_FAILED, None) <->
     env_strdup e = false /\ exists i m, first_match v i m) /\
    (fst r = VA_STATUS_ERROR_UNKNOWN <->
     forall m, In m g_driver_name_map -> ~ entry_matches v m) /\
    (env_strdup e = true ->
     (forall rest, v = reported ("i915" ++ rest) ->
                   r = (VA_STATUS_SUCCESS, Some "i965")) /\
     (forall rest, v = reported ("pvrsrvkm" ++ rest) ->
                   r = (VA_STATUS_SUCCESS, Some "pvr")) /\
     (forall rest, v = reported ("emgd" ++ rest) ->
                   r = (VA_STATUS_SUCCESS, Some "emgd"))) /\
    (v = reported "nouveau" -> r = (VA_STATUS_ERROR_UNKNOWN, None)).
Proof.
  rewrite (GetDriverName_run e st s Hstate).
  eexists _, _. split; [reflexivity|].
  unfold name_run. rewrite Hquery.
  pose proof (selected_first_match v) as Hsel.
  pose proof (selected_none v) as Hnone.
  assert (Hnamed : (exists i m, first_match v i m) <->
                   exists n, name (selected_entry v) = Some n).
  { split.
    - intros [i [m [Hi [Hm Hfirst]]]].
      assert (Hn : exists n, name m = Some n).
      { apply nth_error_In in Hi. rewrite table_entries in Hi.
        destruct Hi as [<-|[<-|[<-|[<-|[]]]]]; cbn; eauto.
        exfalso. exact (end_no_match v Hm). }
      destruct Hn as [n Hn]. exists n. apply Hsel. exists i, m.
      split; [split; [exact Hi | split; [exact Hm | exact Hfirst]] | exact Hn].
    - intros [n Hn]. apply Hsel in Hn. destruct Hn as [i [m [Hf _]]]. eauto. }
  split; [|split; [|split; [|split]]].
  - intro n. split.
    + intro H. destruct (name (selected_entry v)) as [n'|] eqn:En; cbn in H;
        [|discriminate].
      destruct (env_strdup e); cbn in H; [|discriminate].
      injection H as <-. split; [reflexivity | now apply Hsel].
    + intros [Hd H]. apply Hsel in H. now rewrite H, Hd.
  - split.
    + intro H. destruct (name (selected_entry v)) as [n'|] eqn:En; cbn in H;
        [|discriminate].
      destruct (env_strdup e); cbn in H; [discriminate|].
      split; [reflexivity|]. apply Hnamed. eauto.
    + intros [Hd H]. apply Hnamed in H. destruct H as [n Hn]. now rewrite Hn, Hd.
  - split.
    + intro H. apply Hnone.
      destruct (name (selected_entry v)); [|reflexivity].
      destruct (env_strdup e); discriminate.
    + intro H. apply Hnone in H. now rewrite H.
  - intro Hd. rewrite Hd. repeat split.
    + intros rest ->. unfold selected_entry. now rewrite reported_i915.
    + intros rest ->. now rewrite reported_pvrsrvkm.
    + intros rest ->. now rewrite reported_emgd.
  - intros ->. unfold reported. now rewrite nouveau_unmatched.
Qed.

Lemma GetDriverName_first_prefix_match_witness :
  ctx_drm_state (ctx (dc (mk_State ready_context []))) = Some (mk_drm_state 5 3) /\
  env_drmGetVersion (mk_name_env (Some (reported "i915")) true) = Some (reported "i915") /\
  exists st',
    va_DisplayContextGetDriverName (mk_name_env (Some (reported "i915")) true)
      (mk_State ready_context []) = Some ((VA_STATUS_SUCCESS, Some "i965"), st').
Proof.
  repeat split.
  destruct (GetDriverName_first_prefix_match
              (mk_name_env (Some (reported "i915")) true)
              (mk_State ready_context []) (mk_drm_state 5 3) (reported "i915")
              eq_refl eq_refl) as [r [st' [Hrun [_ [_ [_ [Hex _]]]]]]].
  destruct (Hex eq_refl) as [Hi915 _].
  exists st'. rewrite Hrun. now rewrite (Hi915 "" eq_refl).
Defined.

(** Counterexample to C1 as stated: the kernel reports i915, the first
    entry of the table matches it, and the copy of the mapped name cannot
    be allocated; the resolver returns the allocation-failure status and a
    null name, not i965. *)
Lemma GetDriverName_match_without_name :
  va_DisplayContextGetDriverName (mk_name_env (Some (reported "i915")) false)
    (mk_State ready_context []) =
  Some ((VA_STATUS_ERROR_ALLOCATION_FAILED, None),
        mk_State ready_context
          [C_drmGetVersion 5 (Some (reported "i915"));
           C_drmFreeVersion (reported "i915");
           C_strdup "i965" None]) /\
  first_match (reported "i915") 0 e_i915.
Proof.
  split; [vm_compute; reflexivity|].
  split; [reflexivity|]. split.
  - exists "i915". repeat split. cbn. lia.
  - intros j m' Hj. lia.
Qed.

(** Some entry of the table matches exactly when the walk selects an entry
    that carries a name. *)
Lemma table_match_selected (v : drmVersion) :
  (exists m, In m g_driver_name_map /\ entry_matches v m) <->
  exists n, name (selected_entry v) = Some n.
Proof.
  split.
  - intros [m [Hin Hm]].
    destruct (name (selected_entry v)) as [n|] eqn:E; [now exists n|].
    exfalso. exact (proj1 (selected_none v) E m Hin Hm).
  - intros [n Hn]. apply selected_first_match in Hn.
    destruct Hn as [i [m [[Hi [Hm _]] _]]].
    exists m. split; [exact (nth_error_In _ _ Hi) | exact Hm].
Qed.

(** C8.  [va_DisplayContextGetDriverName] returns the allocation-failure
    status, which differs from the unknown-error status, exactly when the
    version query and the table match succeed and the string duplication
    fails; whenever the status is not success the output pointer is null;
    and after a successful query the record is released, once, on every
    path, while after a failed query there is nothing to release. *)
Theorem GetDriverName_status_and_release
  (e : name_env) (st : State) (s : drm_state)
  (Hstate : ctx_drm_state (ctx (dc st)) = Some s) :
  exists r st',
    va_DisplayContextGetDriverName e st = Some (r, st') /\
    VA_STATUS_ERROR_ALLOCATION_FAILED <> VA_STATUS_ERROR_UNKNOWN /\
    (fst r = VA_STATUS_ERROR_ALLOCATION_FAILED <->
     exists v, env_drmGetVersion e = Some v /\
               (exists m, In m g_driver_name_map /\ entry_matches v m) /\
               env_strdup e = false) /\
    (fst r <> VA_STATUS_SUCCESS -> snd r = None) /\
    (forall v, env_drmGetVersion e = Some v ->
       exists tr,
         log st' = (log st ++ C_drmGetVersion (fd s) (Some v)
                            :: C_drmFreeVersion v :: tr)%list /\
         existsb version_call tr = false) /\
    (env_drmGetVersion e = None ->
       log st' = (log st ++ [C_drmGetVersion (fd s) None])%list).
Proof.
  rewrite (GetDriverName_run e st s Hstate).
  eexists _, _. split; [reflexivity|].
  split; [discriminate|].
  unfold name_run. cbn [log].
  destruct (env_drmGetVersion e) as [v|]; cbn [fst snd].
  - pose proof (table_match_selected v) as T.
    destruct (name (selected_entry v)) as [n|] eqn:En.
    + destruct (env_strdup e) eqn:Ed; cbn [fst snd]; repeat split.
      * discriminate.
      * intros [v' [_ [_ H]]]. discriminate.
      * intro H. now elim H.
      * intros v' Hv'. injection Hv' as <-. eexists. split; reflexivity.
      * discriminate.
      * intros _. exists v. repeat split. apply T. now exists n.
      * intros v' Hv'. injection Hv' as <-. eexists. split; reflexivity.
      * discriminate.
    + cbn [fst snd]. repeat split.
      * discriminate.
      * intros [v' [Hv' [Hm _]]]. injection Hv' as <-.
        apply T in Hm. destruct Hm as [n Hn]. discriminate.
      * intros v' Hv'. injection Hv' as <-. eexists. split; reflexivity.
      * discriminate.
  - repeat split.
    + discriminate.
    + intros [v [Hv _]]. discriminate.
    + discriminate.
Qed.

Lemma GetDriverName_status_and_release_witness :
  ctx_drm_state (ctx (dc (mk_State ready_context []))) = Some (mk_drm_state 5 3) /\
  exists st',
    va_DisplayContextGetDriverName (mk_name_env (Some (reported "emgd")) false)
      (mk_State ready_context []) =
    Some ((VA_STATUS_ERROR_ALLOCATION_FAILED, None), st') /\
    exists tr, log st' = C_drmGetVersion 5 (Some (reported "emgd"))
                         :: C_drmFreeVersion (reported "emgd") :: tr.
Proof.
  split; [reflexivity|].
  destruct (GetDriverName_status_and_release
              (mk_name_env (Some (reported "emgd")) false)
              (mk_State ready_context []) (mk_drm_state 5 3) eq_refl)
    as [r [st' [Hrun [_ [_ [_ [Hrel _]]]]]]].
  destruct (Hrel (reported "emgd") eq_refl) as [tr [Hlog _]].
  exists st'. split.
  - pose proof Hrun as Hr. vm_compute in Hr. injection Hr as Hr _.
    rewrite Hrun, <- Hr. reflexivity.
  - exists tr. exact Hlog.
Defined.

(** C10.  A call of [va_DisplayContextGetDriverName] on a context that has
    its DRM state returns, and leaves the whole display context as it found
    it, the descriptor and the authentication type included: only the
    status and the output pointer come back. *)
Theorem GetDriverName_frame
  (e : name_env) (st : State) (s : drm_state)
  (Hstate : ctx_drm_state (ctx (dc st)) = Some s) :
  exists r st',
    va_DisplayContextGetDriverName e st = Some (r, st') /\
    dc st' = dc st /\
    ctx_drm_state (ctx (dc st')) = Some s.
Proof.
  rewrite (GetDriverName_run e st s Hstate).
  eexists _, _. split; [reflexivity|]. cbn [dc]. auto.
Qed.

Lemma GetDriverName_frame_witness :
  ctx_drm_state (ctx (dc (mk_State ready_context []))) = Some (mk_drm_state 5 3) /\
  exists r st',
    va_DisplayContextGetDriverName (mk_name_env (Some (reported "nouveau")) true)
      (mk_State ready_context []) = Some (r, st') /\
    dc st' = ready_context.
Proof.
  split; [reflexivity|].
  destruct (GetDriverName_frame (mk_name_env (Some (reported "nouveau")) true)
              (mk_State ready_context []) (mk_drm_state 5 3) eq_refl)
    as [r [st' [Hrun [Hdc _]]]].
  exists r, st'. split; [exact Hrun | exact Hdc].
Defined.

(** ** One run of the finalizer *)

Lemma finalize_run (st : State) :
  va_wayland_drm_finalize st =
  Some (tt, mk_State (finalized (dc st)) (log st ++ finalize_calls (dc st))).
Proof.
  destruct st as [[[dpy ds] [fin [p a h i]] gdn] l].
  unfold va_wayland_drm_finalize, finalize_calls, finalized, load_drm_state,
    store_drm_state, wl_drm_destroy, dlclose, close, free, bind, get, modify,
    emit, ret, upd_wl_drm, set_drm, set_is_authenticated, set_libEGL_handle,
    set_ctx_drm_state, wl_drm_ctx, ctx.
  cbn [dc log drm is_authenticated libEGL_handle drm_interface opaque
       backend_drm pDriverContext ctx_drm_state native_dpy finalize vaGetDriverName].
  destruct (Z.eqb_spec p NULL) as [->|Hp]; cbn [dc log drm is_authenticated libEGL_handle drm_interface
       opaque backend_drm pDriverContext ctx_drm_state native_dpy finalize vaGetDriverName];
  destruct (Z.eqb_spec h NULL) as [->|Hh]; cbn [dc log drm is_authenticated libEGL_handle drm_interface
       opaque backend_drm pDriverContext ctx_drm_state native_dpy finalize vaGetDriverName];
  destruct ds as [[d t]|]; cbn [dc log drm is_authenticated libEGL_handle drm_interface
       opaque backend_drm pDriverContext ctx_drm_state native_dpy finalize
       vaGetDriverName fd auth_type];
  try destruct (d >=? 0); cbn; rewrite <- ?app_assoc, ?app_nil_r; reflexivity.
Qed.

Lemma finalized_calls_nil (c : VADisplayContext) : finalize_calls (finalized c) = [].
Proof. reflexivity. Qed.

Lemma finalized_finalized (c : VADisplayContext) : finalized (finalized c) = finalized c.
Proof. reflexivity. Qed.

(** ** One run of a callback, and of a round trip *)

Ltac unfold_prims :=
  unfold load_drm_state, store_drm_state, calloc, wl_display_get_global, dlopen,
    dlsym, wl_display_bind, wl_drm_add_listener, stat, open, va_wayland_error,
    drmGetMagic, wl_drm_authenticate, bind, get, modify, emit, ret, fault,
    upd_wl_drm, set_drm, set_is_authenticated, set_libEGL_handle,
    set_drm_interface, set_finalize, set_vaGetDriverName, set_ctx_drm_state,
    map_drm_state, set_fd, set_auth_type, wl_drm_ctx, ctx.

Ltac simpl_fields :=
  cbn [dc log drm is_authenticated libEGL_handle drm_interface opaque backend_drm
       pDriverContext ctx_drm_state native_dpy finalize vaGetDriverName fd
       auth_type option_map fst snd negb].

Lemma after_event_drm_state (ev : wl_drm_event) (c : VADisplayContext) (s : drm_state) :
  ctx_drm_state (ctx c) = Some s ->
  exists s', ctx_drm_state (ctx (after_event ev c)) = Some s'.
Proof.
  intro H. destruct c as [[dpy ds] w g]. cbn in H. subst ds.
  destruct ev as [device os| |]; cbn; eauto.
  destruct (os_stat os) as [m|]; cbn; eauto.
  destruct (S_ISCHR m); cbn; eauto.
Qed.

Lemma drm_listener_run (ev : wl_drm_event) (st : State) (s : drm_state) :
  ctx_drm_state (ctx (dc st)) = Some s ->
  drm_listener ev st =
  Some (tt, mk_State (after_event ev (dc st))
              (log st ++ C_callback ev :: handler_calls ev (dc st))).
Proof.
  destruct st as [[[dpy ds] [fin [p a h i]] gdn] l]. cbn. intros ->.
  destruct ev as [device os| |].
  - unfold drm_listener, drm_handle_device, after_event, handler_calls, stored_fd.
    unfold_prims. simpl_fields.
    destruct (os_stat os) as [m|]; simpl_fields.
    + destruct (S_ISCHR m); simpl_fields.
      * destruct (os_open os) as [n|]; simpl_fields.
        -- destruct (Z.ltb_spec (Z.of_N n) 0) as [Hn|Hn]; [lia|].
           simpl_fields. now rewrite <- !app_assoc.
        -- cbn. now rewrite <- !app_assoc.
      * destruct s. now rewrite <- !app_assoc.
    + destruct s. now rewrite <- !app_assoc.
  - destruct s. reflexivity.
  - reflexivity.
Qed.

Lemma dispatch_run (evs : list wl_drm_event) :
  forall (st : State) (s : drm_state),
    ctx_drm_state (ctx (dc st)) = Some s ->
    dispatch evs st =
    Some (tt, mk_State (after_events evs (dc st))
                (log st ++ dispatch_calls evs (dc st))).
Proof.
  induction evs as [|ev evs IH]; intros st s Hs.
  - cbn. rewrite app_nil_r. now destruct st.
  - cbn [dispatch]. unfold bind. rewrite (drm_listener_run ev st s Hs).
    destruct (after_event_drm_state ev (dc st) s Hs) as [s' Hs'].
    rewrite (IH (mk_State (after_event ev (dc st)) _) s' Hs').
    cbn [dc log after_events fold_left dispatch_calls].
    now rewrite <- app_assoc.
Qed.

(** ** One run of the initializer *)

Lemma after_events_drm_state (evs : list wl_drm_event) :
  forall (c : VADisplayContext) (s : drm_state),
    ctx_drm_state (ctx c) = Some s ->
    exists s', ctx_drm_state (ctx (after_events evs c)) = Some s'.
Proof.
  induction evs as [|ev evs IH]; intros c s Hs; cbn.
  - eauto.
  - destruct (after_event_drm_state ev c s Hs) as [s' Hs']. eauto.
Qed.

(** Equations to run the monad step by step. *)
Lemma run_bind {A B C} (m : M A) (k1 : A -> M B) (k2 : B -> M C) (st : State) :
  bind (bind m k1) k2 st = bind m (fun a => bind (k1 a) k2) st.
Proof. unfold bind. destruct (m st) as [[a st']|]; reflexivity. Qed.

Lemma run_ret {A B} (a : A) (k : A -> M B) (st : State) : bind (ret a) k st = k a st.
Proof. reflexivity. Qed.

Lemma run_get {A B} (f : VADisplayContext -> A) (k : A -> M B) (st : State) :
  bind (get f) k st = k (f (dc st)) st.
Proof. reflexivity. Qed.

Lemma run_modify {B} (f : VADisplayContext -> VADisplayContext) (k : unit -> M B)
  (st : State) :
  bind (modify f) k st = k tt (mk_State (f (dc st)) (log st)).
Proof. reflexivity. Qed.

Lemma run_emit {B} (c : call) (k : unit -> M B) (st : State) :
  bind (emit c) k st = k tt (mk_State (dc st) (log st ++ [c])).
Proof. reflexivity. Qed.

Lemma run_dispatch {B} (evs : list wl_drm_event) (k : unit -> M B)
  (c : VADisplayContext) (l : list call) (s : drm_state) :
  ctx_drm_state (ctx c) = Some s ->
  bind (dispatch evs) k (mk_State c l) =
  k tt (mk_State (after_events evs c) (l ++ dispatch_calls evs c)).
Proof. intro H. unfold bind. now rewrite (dispatch_run evs (mk_State c l) s H). Qed.

Ltac run_step :=
  first [ rewrite run_bind | rewrite run_ret | rewrite run_get
        | rewrite run_modify | rewrite run_emit ];
  cbv beta; cbn [dc log].

Lemma init_run_eq (e : init_env) (st : State) :
  va_wayland_drm_init e st =
  Some (fst (fst (init_run e (dc st))),
        mk_State (snd (fst (init_run e (dc st))))
                 (log st ++ snd (init_run e (dc st)))).
Proof.
  destruct st as [c l]. cbn [dc log].
  unfold va_wayland_drm_init, init_run, calloc, wl_display_get_global, dlopen, dlsym,
    wl_display_bind, wl_drm_add_listener, wl_display_roundtrip, load_drm_state.
  repeat run_step. fold (init_entry c).
  destruct (env_calloc e); cbn [negb fst snd]; [|reflexivity].
  repeat run_step. fold (init_allocated c).
  replace (native_dpy (ctx (init_allocated c))) with (native_dpy (ctx c)) by reflexivity.
  assert (Hreg : forall B (k : Z -> M B) l',
    bind (if env_get_global e =? 0 then
           (emit (C_wl_display_roundtrip (native_dpy (ctx c)));;
            dispatch []);;
           emit (C_wl_display_get_global (native_dpy (ctx c)) "wl_drm" 1
                   (env_get_global_retry e));;
           ret (env_get_global_retry e)
         else ret (env_get_global e)) k
      (mk_State (init_allocated c)
         ((l' ++ [C_calloc true]) ++
          [C_wl_display_get_global (native_dpy (ctx c)) "wl_drm" 1 (env_get_global e)])) =
    k (registry_id e) (mk_State (init_allocated c) (l' ++ calls_registry e c))).
  { intros B k l'. unfold registry_id, calls_registry, registry_calls.
    destruct (env_get_global e =? 0); repeat run_step; cbn [dispatch];
      repeat run_step; rewrite <- !app_assoc; reflexivity. }
  rewrite Hreg. clear Hreg.
  destruct (registry_id e =? 0); [reflexivity|].
  repeat run_step. fold (init_loaded e c).
  rewrite <- app_assoc. fold (calls_loaded e c).
  destruct (env_dlopen e =? NULL); [reflexivity|].
  repeat run_step. fold (init_resolved e c).
  rewrite <- app_assoc. fold (calls_resolved e c).
  destruct (env_dlsym e =? NULL); [reflexivity|].
  repeat run_step. fold (init_bound e c).
  rewrite <- app_assoc. fold (calls_bound e c).
  destruct (env_bind e =? NULL); [reflexivity|].
  assert (Hb : exists s, ctx_drm_state (ctx (init_bound e c)) = Some s)
    by (eexists; reflexivity).
  destruct Hb as [sb Hb].
  destruct (after_events_drm_state (env_roundtrip_device e) _ _ Hb) as [sa Ha].
  fold (init_advertised e c) in Ha.
  repeat run_step.
  rewrite (run_dispatch _ _ _ _ sb Hb). cbv beta. cbn [dc log].
  fold (init_advertised e c).
  repeat run_step. rewrite Ha. repeat run_step.
  unfold current_fd. rewrite Ha.
  rewrite <- !app_assoc. cbn [app]. fold (calls_advertised e c).
  destruct (fd sa <? 0); [reflexivity|].
  repeat run_step.
  rewrite (run_dispatch _ _ _ _ sa Ha). cbv beta. cbn [dc log].
  fold (init_confirmed e c). repeat run_step.
  rewrite <- !app_assoc. cbn [app].
  fold (calls_confirmed e c).
  unfold get, ret.
  destruct (is_authenticated (wl_drm_ctx (init_confirmed e c)) =? 0); reflexivity.
Qed.

(** ** What the callbacks leave alone, and what they change *)

Lemma after_event_frame (ev : wl_drm_event) (c : VADisplayContext) :
  same_frame c (after_event ev c).
Proof.
  destruct ev as [device os| |]; cbn; try (repeat split; reflexivity).
  destruct (os_stat os) as [m|]; [destruct (S_ISCHR m)|]; repeat split; reflexivity.
Qed.

Lemma after_events_frame (evs : list wl_drm_event) :
  forall c, same_frame c (after_events evs c).
Proof.
  induction evs as [|ev evs IH]; intro c; cbn.
  - repeat split; reflexivity.
  - specialize (IH (after_event ev c)). pose proof (after_event_frame ev c) as H.
    unfold same_frame, after_events in *. intuition congruence.
Qed.

Lemma after_events_not_authenticated (evs : list wl_drm_event) :
  forall c, ~ In Ev_authenticated evs ->
            is_authenticated (wl_drm_ctx (after_events evs c)) =
            is_authenticated (wl_drm_ctx c).
Proof.
  induction evs as [|ev evs IH]; intros c Hno; cbn; [reflexivity|].
  unfold after_events in IH. rewrite IH by (intro H; apply Hno; now right).
  destruct ev as [device os| |]; cbn; try reflexivity.
  - destruct (os_stat os) as [m|]; [destruct (S_ISCHR m)|]; reflexivity.
  - exfalso. apply Hno. now left.
Qed.

Lemma after_event_fd_unset (ev : wl_drm_event) (c : VADisplayContext) :
  (forall device os, ev = Ev_device device os -> device_unusable os) ->
  fd_unset c -> fd_unset (after_event ev c).
Proof.
  intros Hev [s [Hs Hfd]]. destruct c as [[dpy ds] w g]. cbn in Hs. subst ds.
  unfold fd_unset. destruct ev as [device os| |]; cbn.
  - specialize (Hev device os eq_refl).
    destruct (os_stat os) as [m|] eqn:Est; cbn; [|eauto].
    destruct (S_ISCHR m) eqn:Echr; cbn; [|eauto].
    destruct Hev as [H|[[m' [H1 H2]]|H]].
    + congruence.
    + congruence.
    + rewrite H. eauto.
  - eauto.
  - eauto.
Qed.

Lemma after_events_fd_unset (evs : list wl_drm_event) :
  forall c, no_usable_device evs -> fd_unset c -> fd_unset (after_events evs c).
Proof.
  induction evs as [|ev evs IH]; intros c Hevs Hc; cbn; [exact Hc|].
  apply IH.
  - intros device os Hin. apply (Hevs device os). now right.
  - apply after_event_fd_unset; [|exact Hc].
    intros device os ->. apply (Hevs device os). now left.
Qed.

Lemma fd_unset_current (c : VADisplayContext) : fd_unset c -> current_fd c = -1.
Proof. intros [s [Hs Hfd]]. unfold current_fd. now rewrite Hs. Qed.

(** The hooks and the results of a run, stage by stage. *)
Lemma init_run_hooks (e : init_env) (c : VADisplayContext) :
  finalize (opaque (snd (fst (init_run e c)))) = Some fn_va_wayland_drm_finalize /\
  vaGetDriverName (snd (fst (init_run e c))) = Some fn_va_DisplayContextGetDriverName.
Proof.
  pose proof (after_events_frame (env_roundtrip_device e) (init_bound e c)) as F1.
  pose proof (after_events_frame (env_roundtrip_auth e) (init_advertised e c)) as F2.
  fold (init_advertised e c) in F1. fold (init_confirmed e c) in F2.
  destruct F1 as [_ [F1 [G1 _]]]. destruct F2 as [_ [F2 [G2 _]]].
  unfold init_run.
  repeat match goal with
         | |- context [if ?b then _ else _] => destruct b
         end; cbn [fst snd]; try (split; reflexivity);
    split; try (rewrite F2); try (rewrite G2); try rewrite F1; try rewrite G1;
    reflexivity.
Qed.

(** C9.  For every environment and every context, [va_wayland_drm_init]
    returns with the finalize hook and the driver-name resolver installed
    on the context, whatever it returns; they are stored before the first
    fallible step, the allocation of the DRM state, whose failure therefore
    leaves them set as well. *)
Theorem init_installs_hooks (e : init_env) (st : State) :
  exists r st',
    va_wayland_drm_init e st = Some (r, st') /\
    finalize (opaque (dc st')) = Some fn_va_wayland_drm_finalize /\
    vaGetDriverName (dc st') = Some fn_va_DisplayContextGetDriverName /\
    (exists tr, log st' = (log st ++ C_calloc (env_calloc e) :: tr)%list) /\
    (env_calloc e = false ->
     r = false /\ log st' = (log st ++ [C_calloc false])%list).
Proof.
  rewrite init_run_eq. eexists _, _. split; [reflexivity|]. cbn [dc log].
  destruct (init_run_hooks e (dc st)) as [H1 H2].
  split; [exact H1|]. split; [exact H2|]. split.
  - unfold init_run, calls_confirmed, calls_advertised, calls_bound, calls_resolved,
      calls_loaded, calls_registry.
    repeat match goal with
           | |- context [if negb ?b then _ else _] => destruct b; cbn [negb]
           | |- context [if ?b =? ?x then _ else _] => destruct (b =? x)
           | |- context [if ?b <? ?x then _ else _] => destruct (b <? x)
           end; cbn [fst snd]; rewrite <- ?app_assoc; cbn [app]; eexists; reflexivity.
  - intro H. unfold init_run. rewrite H. cbn. auto.
Qed.

Lemma init_installs_hooks_witness :
  exists st',
    va_wayland_drm_init env_no_memory
      (mk_State fresh_context []) = Some (false, st') /\
    finalize (opaque (dc st')) = Some fn_va_wayland_drm_finalize /\
    vaGetDriverName (dc st') = Some fn_va_DisplayContextGetDriverName.
Proof.
  destruct (init_installs_hooks env_no_memory
              (mk_State fresh_context []))
    as [r [st' [Hrun [Hf [Hg [_ Hfail]]]]]].
  destruct (Hfail eq_refl) as [Hr _]. subst r.
  exists st'. auto.
Defined.

Lemma init_bound_fd_unset (e : init_env) (c : VADisplayContext) :
  fd_unset (init_allocated c) /\ fd_unset (init_loaded e c) /\
  fd_unset (init_resolved e c) /\ fd_unset (init_bound e c).
Proof. repeat split; eexists; split; reflexivity. Qed.

(** C3.  When every device node the compositor advertises does not exist,
    is not a character device, or fails to open, [va_wayland_drm_init]
    returns false and the descriptor of the DRM state it allocated is -1
    (when even the allocation failed, the context keeps the DRM state
    pointer it had). *)
Theorem init_fails_without_device
  (e : init_env) (st : State)
  (Hdev : no_usable_device (env_roundtrip_device e)) :
  exists st',
    va_wayland_drm_init e st = Some (false, st') /\
    (env_calloc e = true -> fd_unset (dc st')) /\
    (env_calloc e = false ->
     ctx_drm_state (ctx (dc st')) = ctx_drm_state (ctx (dc st))).
Proof.
  rewrite init_run_eq.
  destruct (init_bound_fd_unset e (dc st)) as [U1 [U2 [U3 U4]]].
  pose proof (after_events_fd_unset _ _ Hdev U4) as U5.
  fold (init_advertised e (dc st)) in U5.
  unfold init_run. rewrite (fd_unset_current _ U5).
  change (-1 <? 0) with true.
  destruct (env_calloc e); cbn [negb].
  - repeat match goal with
           | |- context [if ?b =? ?x then _ else _] => destruct (b =? x)
           end; cbn [fst snd]; eexists; (split; [reflexivity|]); cbn [dc];
      (split; [intros _; assumption | discriminate]).
  - cbn [fst snd]. eexists. split; [reflexivity|]. cbn [dc].
    split; [discriminate | reflexivity].
Qed.

Lemma init_fails_without_device_witness :
  no_usable_device (env_roundtrip_device env_missing_node) /\
  exists st',
    va_wayland_drm_init env_missing_node (mk_State fresh_context []) =
    Some (false, st') /\
    fd_unset (dc st').
Proof.
  assert (H : no_usable_device (env_roundtrip_device env_missing_node)).
  { intros device os [E|[]]. injection E as _ <-. left. reflexivity. }
  split; [exact H|].
  destruct (init_fails_without_device env_missing_node (mk_State fresh_context []) H)
    as [st' [Hrun [Hfd _]]].
  exists st'. split; [exact Hrun | exact (Hfd eq_refl)].
Defined.

(** C4.  When the authentication-confirmed callback fires in neither of
    the two round trips that follow the registration of the listener,
    [va_wayland_drm_init] returns false, whether or not the device was
    opened. *)
Theorem init_fails_without_confirmation
  (e : init_env) (st : State)
  (Hfirst : ~ In Ev_authenticated (env_roundtrip_device e))
  (Hsecond : ~ In Ev_authenticated (env_roundtrip_auth e)) :
  exists st', va_wayland_drm_init e st = Some (false, st').
Proof.
  rewrite init_run_eq. unfold init_run.
  assert (Ha : is_authenticated (wl_drm_ctx (init_confirmed e (dc st))) = 0).
  { unfold init_confirmed, init_advertised.
    rewrite (after_events_not_authenticated _ _ Hsecond).
    rewrite (after_events_not_authenticated _ _ Hfirst). reflexivity. }
  rewrite Ha. change (0 =? 0) with true.
  repeat match goal with
         | |- context [if ?b then _ else _] => destruct b
         end; cbn [fst snd]; eexists; reflexivity.
Qed.

Lemma init_fails_without_confirmation_witness :
  ~ In Ev_authenticated (env_roundtrip_device env_silent_compositor) /\
  ~ In Ev_authenticated (env_roundtrip_auth env_silent_compositor) /\
  exists st',
    va_wayland_drm_init env_silent_compositor (mk_State fresh_context []) =
    Some (false, st') /\
    ctx_drm_state (ctx (dc st')) = Some (mk_drm_state 5 0) /\
    In (C_open "/dev/dri/card0" (Some 5%N)) (log st').
Proof.
  assert (H1 : ~ In Ev_authenticated (env_roundtrip_device env_silent_compositor)).
  { intros [E|[]]. discriminate. }
  assert (H2 : ~ In Ev_authenticated (env_roundtrip_auth env_silent_compositor)).
  { intros [E|[]]. discriminate. }
  split; [exact H1|]. split; [exact H2|].
  destruct (init_fails_without_confirmation env_silent_compositor
              (mk_State fresh_context []) H1 H2) as [st' Hrun].
  exists st'. pose proof Hrun as Hst. vm_compute in Hst. injection Hst as Hst.
  split; [exact Hrun|]. rewrite <- Hst. split; [reflexivity|].
  cbn. tauto.
Defined.

(** ** Which results the initializer examines *)

(** C2, as the code has it.  The initializer examines the results of
    [calloc], of the registry query (after its one retry), of [dlopen],
    [dlsym] and [wl_display_bind], and returns false when one of them fails;
    its device callback examines the results of [stat] and [open], and the
    initializer returns false when no advertised device could be opened. *)
Theorem init_examined_results (e : init_env) (st : State) :
  exists r st',
    va_wayland_drm_init e st = Some (r, st') /\
    (env_calloc e = false -> r = false) /\
    (env_get_global e = 0 -> env_get_global_retry e = 0 -> r = false) /\
    (env_dlopen e = NULL -> r = false) /\
    (env_dlsym e = NULL -> r = false) /\
    (env_bind e = NULL -> r = false) /\
    (no_usable_device (env_roundtrip_device e) -> r = false).
Proof.
  rewrite init_run_eq. eexists _, _. split; [reflexivity|]. cbn [dc].
  repeat split.
  - intro H. unfold init_run. now rewrite H.
  - intros H1 H2. unfold init_run, registry_id. rewrite H1, H2. cbn.
    now destruct (env_calloc e).
  - intro H. unfold init_run. rewrite H. cbn.
    destruct (env_calloc e); [|reflexivity]. now destruct (registry_id e =? 0).
  - intro H. unfold init_run. rewrite H. cbn.
    destruct (env_calloc e); [|reflexivity]. destruct (registry_id e =? 0); [reflexivity|].
    now destruct (env_dlopen e =? NULL).
  - intro H. unfold init_run. rewrite H. cbn.
    destruct (env_calloc e); [|reflexivity]. destruct (registry_id e =? 0); [reflexivity|].
    destruct (env_dlopen e =? NULL); [reflexivity|].
    now destruct (env_dlsym e =? NULL).
  - intro H.
    destruct (init_bound_fd_unset e (dc st)) as [_ [_ [_ U4]]].
    pose proof (after_events_fd_unset _ _ H U4) as U5.
    fold (init_advertised e (dc st)) in U5.
    unfold init_run. rewrite (fd_unset_current _ U5). change (-1 <? 0) with true.
    repeat match goal with
           | |- context [if ?b then _ else _] => destruct b
           end; reflexivity.
Qed.

(** Counterexample to C2 as stated: [drmGetMagic] fails in the device
    callback; its result is not looked at, the callback goes on to send the
    magic to the compositor, and when the compositor confirms, the
    initializer reports success. *)
Lemma init_succeeds_after_failed_call :
  exists st',
    va_wayland_drm_init env_no_magic (mk_State fresh_context []) =
    Some (true, st') /\
    In (C_drmGetMagic 5 (-13) 0) (log st') /\
    existsb call_failed (log st') = true.
Proof.
  eexists. split; [vm_compute; reflexivity|].
  split; [cbn; tauto | vm_compute; reflexivity].
Qed.

(** ** The order of the steps of the initializer *)

Lemma precedes_split (P Q : call -> bool) (A B : list call) :
  forallb (fun x => negb (Q x)) A = true ->
  forallb (fun y => negb (P y)) B = true ->
  precedes P Q (A ++ B).
Proof.
  intros HA HB i j x y Hi Hj Px Qy.
  rewrite forallb_forall in HA, HB.
  destruct (Nat.lt_ge_cases i (List.length A)) as [Hia|Hia].
  - destruct (Nat.lt_ge_cases j (List.length A)) as [Hja|Hja]; [|lia].
    rewrite nth_error_app1 in Hj by exact Hja.
    apply nth_error_In in Hj. apply HA in Hj. rewrite Qy in Hj. discriminate.
  - rewrite nth_error_app2 in Hi by exact Hia.
    apply nth_error_In in Hi. apply HB in Hi. rewrite Px in Hi. discriminate.
Qed.

Lemma precedes_prefix (P Q : call -> bool) (l l' : list call) :
  precedes P Q (l ++ l') -> precedes P Q l.
Proof.
  intros H i j x y Hi Hj. apply (H i j x y).
  - rewrite nth_error_app1; [exact Hi | apply nth_error_Some; congruence].
  - rewrite nth_error_app1; [exact Hj | apply nth_error_Some; congruence].
Qed.

Lemma dispatch_calls_no_step (evs : list wl_drm_event) :
  forall c, forallb no_step (dispatch_calls evs c) = true.
Proof.
  induction evs as [|ev evs IH]; intro c; cbn [dispatch_calls]; [reflexivity|].
  cbn [forallb]. rewrite forallb_app, IH, andb_true_r.
  destruct ev as [device os| |]; cbn; try reflexivity.
  destruct (os_stat os) as [m|]; [|reflexivity].
  destruct (S_ISCHR m); [|reflexivity].
  destruct (os_open os); reflexivity.
Qed.

Lemma forallb_weaken {A} (f g : A -> bool) (l : list A) :
  (forall x, f x = true -> g x = true) -> forallb f l = true -> forallb g l = true.
Proof.
  intros Hfg. rewrite !forallb_forall. intros H x Hx. auto.
Qed.

Lemma calls_confirmed_split (e : init_env) (c : VADisplayContext) :
  calls_confirmed e c = (calls_registry e c ++ calls_after_registry e c)%list.
Proof.
  unfold calls_confirmed, calls_advertised, calls_bound, calls_resolved,
    calls_loaded, calls_after_registry.
  rewrite <- !app_assoc. reflexivity.
Qed.

Lemma calls_confirmed_order (e : init_env) (c : VADisplayContext) :
  precedes is_get_global is_dlopen (calls_confirmed e c) /\
  precedes is_dlopen is_dlsym (calls_confirmed e c).
Proof.
  pose proof (dispatch_calls_no_step (env_roundtrip_device e) (init_bound e c)) as D1.
  pose proof (dispatch_calls_no_step (env_roundtrip_auth e) (init_advertised e c)) as D2.
  split.
  - rewrite calls_confirmed_split. apply precedes_split.
    + unfold calls_registry, registry_calls. now destruct (env_get_global e =? 0).
    + unfold calls_after_registry. cbn [forallb is_get_global negb andb].
      rewrite forallb_app. cbn [forallb is_get_global negb andb].
      apply andb_true_intro. split.
      * apply (forallb_weaken no_step); [|exact D1].
        intros x H. unfold no_step in H. now destruct (is_get_global x).
      * apply (forallb_weaken no_step); [|exact D2].
        intros x H. unfold no_step in H. now destruct (is_get_global x).
  - unfold calls_confirmed, calls_advertised, calls_bound, calls_resolved.
    rewrite <- !app_assoc. apply precedes_split.
    + unfold calls_loaded, calls_registry, registry_calls.
      now destruct (env_get_global e =? 0).
    + cbn [app forallb is_dlopen negb andb]. rewrite forallb_app.
      cbn [forallb is_dlopen negb andb].
      apply andb_true_intro. split.
      * apply (forallb_weaken no_step); [|exact D1].
        intros x H. unfold no_step in H.
        destruct (is_get_global x), (is_dlopen x); (reflexivity || discriminate).
      * apply (forallb_weaken no_step); [|exact D2].
        intros x H. unfold no_step in H.
        destruct (is_get_global x), (is_dlopen x); (reflexivity || discriminate).
Qed.

Lemma precedes_without (P Q : call -> bool) (l : list call) :
  forallb (fun x => negb (P x)) l = true -> precedes P Q l.
Proof.
  intros H i j x y Hi _ Px _. rewrite forallb_forall in H.
  apply nth_error_In in Hi. apply H in Hi. rewrite Px in Hi. discriminate.
Qed.

Lemma init_run_order (e : init_env) (c : VADisplayContext) :
  precedes is_get_global is_dlopen (snd (init_run e c)) /\
  precedes is_dlopen is_dlsym (snd (init_run e c)).
Proof.
  destruct (calls_confirmed_order e c) as [G5 L5].
  assert (G4 := G5). assert (L4 := L5).
  unfold calls_confirmed in G4, L4. apply precedes_prefix in G4, L4.
  assert (G3 := G4). assert (L3 := L4).
  unfold calls_advertised in G3, L3. apply precedes_prefix in G3, L3.
  assert (G2 := G3). assert (L2 := L3).
  unfold calls_bound in G2, L2. apply precedes_prefix in G2, L2.
  assert (G1 := G2). assert (L1 := L2).
  unfold calls_resolved in G1, L1. apply precedes_prefix in G1, L1.
  assert (G0 := G1). assert (L0 := L1).
  unfold calls_loaded in G0, L0. apply precedes_prefix in G0, L0.
  unfold init_run.
  repeat match goal with
         | |- context [if ?b then _ else _] => destruct b
         end; cbn [fst snd]; try (split; assumption).
  split; apply precedes_without; reflexivity.
Qed.

(** C7, as the code has it.  In every run of [va_wayland_drm_init] the
    registry is queried for the wl_drm interface first, the rendering
    library is loaded next, and its interface descriptor is looked up after
    that; a run that returns true has made all three calls. *)
Theorem init_call_order (e : init_env) (st : State) :
  exists r st' tr,
    va_wayland_drm_init e st = Some (r, st') /\
    log st' = (log st ++ tr)%list /\
    precedes is_get_global is_dlopen tr /\
    precedes is_dlopen is_dlsym tr /\
    (r = true ->
     In (C_wl_display_get_global (native_dpy (ctx (dc st))) "wl_drm" 1
           (env_get_global e)) tr /\
     In (C_dlopen LIBEGL_NAME (env_dlopen e)) tr /\
     In (C_dlsym (env_dlopen e) "wl_drm_interface" (env_dlsym e)) tr).
Proof.
  rewrite init_run_eq. eexists _, _, _. split; [reflexivity|]. cbn [log].
  split; [reflexivity|].
  destruct (init_run_order e (dc st)) as [H1 H2].
  split; [exact H1|]. split; [exact H2|].
  unfold init_run.
  repeat match goal with
         | |- context [if ?b then _ else _] => destruct b
         end; cbn [fst snd]; try discriminate.
  intros _. rewrite calls_confirmed_split.
  unfold calls_registry, registry_calls, calls_after_registry.
  repeat split; apply in_or_app; cbn; tauto.
Qed.

(** Counterexample to C7 as stated: in a successful run the registry query
    is the second call of the log, the library load the third and the
    symbol lookup the fourth, so the lookup does not precede the query. *)
Lemma init_queries_registry_first :
  exists st',
    va_wayland_drm_init env_success (mk_State fresh_context []) = Some (true, st') /\
    nth_error (log st') 1 = Some (C_wl_display_get_global 4096 "wl_drm" 1 7) /\
    nth_error (log st') 2 = Some (C_dlopen "libEGL.so.1" 12288) /\
    nth_error (log st') 3 = Some (C_dlsym 12288 "wl_drm_interface" 16384) /\
    ~ precedes is_dlopen is_get_global (log st') /\
    ~ precedes is_dlsym is_get_global (log st').
Proof.
  eexists. split; [vm_compute; reflexivity|].
  split; [reflexivity|]. split; [reflexivity|]. split; [reflexivity|].
  split; intro H.
  - specialize (H 2%nat 1%nat _ _ eq_refl eq_refl eq_refl eq_refl). lia.
  - specialize (H 3%nat 1%nat _ _ eq_refl eq_refl eq_refl eq_refl). lia.
Qed.

(** ** The invariant of the DRM state *)

Lemma drm_invariant_incl (ds : option drm_state) (l l' : list call) :
  incl l l' -> drm_invariant ds l -> drm_invariant ds l'.
Proof.
  intros Hincl H s Hs. destruct (H s Hs) as [H1 H2]. split.
  - intro Hfd. destruct (H1 Hfd) as [path [n [Hin Hn]]]. exists path, n. auto.
  - intro Ha. auto.
Qed.

Lemma drm_invariant_event (ev : wl_drm_event) (c : VADisplayContext) (l : list call) :
  drm_invariant (ctx_drm_state (ctx c)) l ->
  drm_invariant (ctx_drm_state (ctx (after_event ev c)))
    (l ++ C_callback ev :: handler_calls ev c).
Proof.
  intro H.
  assert (Hold : drm_invariant (ctx_drm_state (ctx c))
                   (l ++ C_callback ev :: handler_calls ev c)).
  { apply (drm_invariant_incl _ l); [apply incl_appl, incl_refl | exact H]. }
  destruct c as [[dpy ds] w g]. cbn [ctx pDriverContext ctx_drm_state] in *.
  destruct ev as [device os| |]; cbn [after_event stored_fd].
  - destruct (os_stat os) as [m|] eqn:Est; [|exact Hold].
    destruct (S_ISCHR m) eqn:Echr; [|exact Hold].
    destruct ds as [s|]; cbn; [|intros s' Hs'; discriminate].
    intros s' Hs'. injection Hs' as <-. cbn [fd auth_type set_fd].
    destruct (Hold s eq_refl) as [_ Hauth]. split; [|exact Hauth].
    intro Hfd. destruct (os_open os) as [n|] eqn:Eo; [|lia].
    exists device, n. split; [|reflexivity].
    apply in_or_app. right. cbn [handler_calls].
    rewrite ?Est, ?Echr, ?Eo. cbn. tauto.
  - exact Hold.
  - destruct ds as [s|]; cbn; [|intros s' Hs'; discriminate].
    intros s' Hs'. injection Hs' as <-. cbn [fd auth_type set_auth_type].
    destruct (Hold s eq_refl) as [Hfd _]. split; [exact Hfd|].
    intros _. apply in_or_app. right. cbn. tauto.
Qed.

Lemma drm_invariant_events (evs : list wl_drm_event) :
  forall (c : VADisplayContext) (l : list call),
    drm_invariant (ctx_drm_state (ctx c)) l ->
    drm_invariant (ctx_drm_state (ctx (after_events evs c)))
      (l ++ dispatch_calls evs c).
Proof.
  induction evs as [|ev evs IH]; intros c l H; cbn [after_events fold_left dispatch_calls].
  - now rewrite app_nil_r.
  - pose proof (IH _ _ (drm_invariant_event ev c l H)) as H'.
    rewrite <- app_assoc in H'. exact H'.
Qed.

Lemma drm_listener_null (ev : wl_drm_event) (st st' : State) :
  ctx_drm_state (ctx (dc st)) = None ->
  drm_listener ev st = Some (tt, st') ->
  ctx_drm_state (ctx (dc st')) = None.
Proof.
  destruct st as [[[dpy ds] [fin [p a h i]] gdn] l]. cbn. intros ->.
  destruct ev as [device os| |];
    unfold drm_listener, drm_handle_device, drm_handle_format, drm_handle_authenticated;
    unfold_prims; simpl_fields.
  - destruct (os_stat os) as [m|]; simpl_fields.
    + destruct (S_ISCHR m); simpl_fields; [discriminate|].
      intro H. injection H as <-. reflexivity.
    + intro H. injection H as <-. reflexivity.
  - intro H. injection H as <-. reflexivity.
  - discriminate.
Qed.

Lemma init_run_invariant (e : init_env) (c : VADisplayContext) (l : list call) :
  drm_invariant (ctx_drm_state (ctx c)) l ->
  drm_invariant (ctx_drm_state (ctx (snd (fst (init_run e c)))))
    (l ++ snd (init_run e c)).
Proof.
  intro H.
  assert (Hb : forall l', drm_invariant (ctx_drm_state (ctx (init_bound e c))) l').
  { intros l' s Hs. injection Hs as <-. cbn. split; [lia | congruence]. }
  pose proof (drm_invariant_events (env_roundtrip_device e) (init_bound e c)
                (l ++ calls_bound e c ++
                 [C_wl_drm_add_listener (env_bind e) (env_add_listener e);
                  C_wl_display_roundtrip (native_dpy (ctx c))]) (Hb _)) as Ha.
  fold (init_advertised e c) in Ha.
  assert (Ha' : drm_invariant (ctx_drm_state (ctx (init_advertised e c)))
                  (l ++ calls_advertised e c)).
  { unfold calls_advertised. rewrite <- !app_assoc in Ha. exact Ha. }
  pose proof (drm_invariant_events (env_roundtrip_auth e) (init_advertised e c)
                ((l ++ calls_advertised e c) ++
                 [C_wl_display_roundtrip (native_dpy (ctx c))])
                (drm_invariant_incl _ _ _ (incl_appl _ (incl_refl _)) Ha')) as Hc.
  fold (init_confirmed e c) in Hc.
  assert (Hc' : drm_invariant (ctx_drm_state (ctx (init_confirmed e c)))
                  (l ++ calls_confirmed e c)).
  { unfold calls_confirmed. rewrite <- !app_assoc in Hc. exact Hc. }
  unfold init_run.
  repeat match goal with
         | |- context [if ?b then _ else _] => destruct b
         end; cbn [fst snd]; try assumption; try apply Hb.
  apply (drm_invariant_incl _ l); [apply incl_appl, incl_refl | exact H].
Qed.

(** C5.  In every state reachable through the initializer and its
    callbacks, a descriptor that is not negative was returned by a
    successful [open] of the device, and an authentication type other than
    0 means that the confirmation callback has fired. *)
Theorem reachable_drm_state_invariant (st : State) :
  reachable st -> drm_state_invariant st.
Proof.
  induction 1 as [c l Hc | e st r st' Hreach IH Hrun | ev st st' Hreach IH Hrun];
    unfold drm_state_invariant in *.
  - cbn. rewrite Hc. intros s Hs. discriminate.
  - rewrite init_run_eq in Hrun. injection Hrun as _ <-. cbn [dc log].
    apply init_run_invariant. exact IH.
  - destruct (ctx_drm_state (ctx (dc st))) as [s|] eqn:Es.
    + rewrite (drm_listener_run ev st s Es) in Hrun. injection Hrun as <-.
      cbn [dc log]. apply drm_invariant_event. rewrite Es. exact IH.
    + rewrite (drm_listener_null ev st st' Es Hrun). intros s Hs. discriminate.
Qed.

Lemma reachable_drm_state_invariant_witness :
  exists st',
    va_wayland_drm_init env_success (mk_State fresh_context []) = Some (true, st') /\
    ctx_drm_state (ctx (dc st')) = Some (mk_drm_state 5 VA_DRM_AUTH_CUSTOM) /\
    reachable st' /\
    drm_state_invariant st'.
Proof.
  eexists. split; [vm_compute; reflexivity|]. split; [reflexivity|].
  assert (H : reachable
                (mk_State
                   (snd (fst (init_run env_success fresh_context)))
                   ([] ++ snd (init_run env_success fresh_context)))).
  { apply (reach_init env_success (mk_State fresh_context []) true).
    - apply reach_start. reflexivity.
    - vm_compute. reflexivity. }
  split; [exact H | exact (reachable_drm_state_invariant _ H)].
Defined.

(** ** The finalizer *)

Lemma finalize_calls_destroy (c : VADisplayContext) (p : ptr) :
  In (C_wl_drm_destroy p) (finalize_calls c) <->
  p = drm (wl_drm_ctx c) /\ p <> NULL.
Proof.
  unfold finalize_calls.
  destruct (Z.eqb_spec (drm (wl_drm_ctx c)) NULL) as [Hp|Hp];
    destruct (libEGL_handle (wl_drm_ctx c) =? NULL);
    destruct (ctx_drm_state (ctx c)) as [s|]; try destruct (fd s >=? 0);
    cbn [app In]; split; intro H;
    try (destruct H as [-> H]; first [contradiction | now left]);
    repeat (destruct H as [H|H]; try discriminate H); try contradiction;
    injection H as <-; split; auto.
Qed.

Lemma finalize_calls_dlclose (c : VADisplayContext) (h : ptr) :
  In (C_dlclose h) (finalize_calls c) <->
  h = libEGL_handle (wl_drm_ctx c) /\ h <> NULL.
Proof.
  unfold finalize_calls.
  destruct (drm (wl_drm_ctx c) =? NULL);
    destruct (Z.eqb_spec (libEGL_handle (wl_drm_ctx c)) NULL) as [Hh|Hh];
    destruct (ctx_drm_state (ctx c)) as [s|]; try destruct (fd s >=? 0);
    cbn [app In]; split; intro H;
    try (destruct H as [-> H]; first [contradiction | tauto]);
    repeat (destruct H as [H|H]; try discriminate H); try contradiction;
    injection H as <-; split; auto.
Qed.

Lemma finalize_calls_close (c : VADisplayContext) (d : Z) :
  In (C_close d) (finalize_calls c) <->
  exists s, ctx_drm_state (ctx c) = Some s /\ d = fd s /\ 0 <= d.
Proof.
  unfold finalize_calls.
  destruct (drm (wl_drm_ctx c) =? NULL);
    destruct (libEGL_handle (wl_drm_ctx c) =? NULL);
    destruct (ctx_drm_state (ctx c)) as [s|];
    try destruct (Z.geb_spec (fd s) 0) as [Hd|Hd];
    cbn [app In]; split; intro H;
    try (destruct H as [s' [Hs' [-> Hge]]]; first [discriminate Hs' | injection Hs' as <-];
         first [lia | tauto]);
    repeat (destruct H as [H|H]; try discriminate H); try contradiction;
    injection H as <-; exists s; repeat split; lia.
Qed.

Lemma finalize_calls_free (c : VADisplayContext) (b : drm_state) :
  In (C_free b) (finalize_calls c) <->
  exists s, ctx_drm_state (ctx c) = Some s /\
            auth_type b = auth_type s /\
            fd b = if fd s >=? 0 then -1 else fd s.
Proof.
  unfold finalize_calls.
  destruct (drm (wl_drm_ctx c) =? NULL);
    destruct (libEGL_handle (wl_drm_ctx c) =? NULL);
    destruct (ctx_drm_state (ctx c)) as [s|];
    try destruct (fd s >=? 0) eqn:Ed;
    cbn [app In]; split; intro H.
  all: try (destruct H as [s' [Hs' [Ha Hf]]];
            first [discriminate Hs' | injection Hs' as <-];
            rewrite ?Ed in Hf;
            destruct b as [bf ba], s as [sf sa]; cbn [fd auth_type set_fd] in *; subst;
            tauto).
  all: repeat (destruct H as [H|H]; try discriminate H); try contradiction.
  all: injection H as <-; exists s; rewrite ?Ed; repeat split.
Qed.

(** C6.  [va_wayland_drm_finalize] returns on every state; a second run
    changes nothing and makes no call; it leaves the proxy and the library
    handle null, the authenticated flag cleared and the DRM state pointer
    null; it destroys the proxy, closes the library and the descriptor and
    frees the DRM state exactly when the state holds them, the freed block
    having its descriptor reset to -1 when it was open.  In particular it
    can be run, twice as well as once, on whatever state a failed
    initialization leaves. *)
Theorem finalize_idempotent_and_guarded :
  (forall st : State,
     exists st1 tr,
       va_wayland_drm_finalize st = Some (tt, st1) /\
       va_wayland_drm_finalize st1 = Some (tt, st1) /\
       drm (wl_drm_ctx (dc st1)) = NULL /\
       is_authenticated (wl_drm_ctx (dc st1)) = 0 /\
       libEGL_handle (wl_drm_ctx (dc st1)) = NULL /\
       ctx_drm_state (ctx (dc st1)) = None /\
       log st1 = (log st ++ tr)%list /\
       (forall p, In (C_wl_drm_destroy p) tr <->
                  p = drm (wl_drm_ctx (dc st)) /\ p <> NULL) /\
       (forall h, In (C_dlclose h) tr <->
                  h = libEGL_handle (wl_drm_ctx (dc st)) /\ h <> NULL) /\
       (forall d, In (C_close d) tr <->
                  exists s, ctx_drm_state (ctx (dc st)) = Some s /\
                            d = fd s /\ 0 <= d) /\
       (forall b, In (C_free b) tr <->
                  exists s, ctx_drm_state (ctx (dc st)) = Some s /\
                            auth_type b = auth_type s /\
                            fd b = if fd s >=? 0 then -1 else fd s)) /\
  (forall (e : init_env) (pre st : State),
     va_wayland_drm_init e pre = Some (false, st) ->
     exists st1,
       va_wayland_drm_finalize st = Some (tt, st1) /\
       va_wayland_drm_finalize st1 = Some (tt, st1)).
Proof.
  assert (Hidem : forall st,
            va_wayland_drm_finalize
              (mk_State (finalized (dc st)) (log st ++ finalize_calls (dc st))) =
            Some (tt, mk_State (finalized (dc st)) (log st ++ finalize_calls (dc st)))).
  { intro st. rewrite finalize_run. cbn [dc log].
    rewrite finalized_calls_nil, finalized_finalized, app_nil_r. reflexivity. }
  split.
  - intro st. rewrite finalize_run. eexists _, _. split; [reflexivity|].
    split; [apply Hidem|]. cbn [dc log].
    do 4 (split; [reflexivity|]). split; [reflexivity|].
    split; [apply finalize_calls_destroy|].
    split; [apply finalize_calls_dlclose|].
    split; [apply finalize_calls_close | apply finalize_calls_free].
  - intros e pre st _. rewrite finalize_run. eexists.
    split; [reflexivity | apply Hidem].
Qed.

Lemma finalize_idempotent_and_guarded_witness :
  exists st st1,
    va_wayland_drm_init env_no_memory (mk_State fresh_context []) = Some (false, st) /\
    va_wayland_drm_finalize st = Some (tt, st1) /\
    va_wayland_drm_finalize st1 = Some (tt, st1) /\
    log st1 = [C_calloc false].
Proof.
  eexists. 
  assert (Hrun : va_wayland_drm_init env_no_memory (mk_State fresh_context []) =
                 Some (false, mk_State (init_entry fresh_context) [C_calloc false]))
    by (vm_compute; reflexivity).
  destruct (proj2 finalize_idempotent_and_guarded env_no_memory
              (mk_State fresh_context []) _ Hrun) as [st1 [H1 H2]].
  exists st1. split; [exact Hrun|]. split; [exact H1|]. split; [exact H2|].
  vm_compute in H1. injection H1 as <-. reflexivity.
Defined.

(** * Further properties of the code *)

(** ** Further properties of the driver name mapper *)

Lemma selected_name_range (v : drmVersion) (n : string) :
  name (selected_entry v) = Some n -> In n backend_names.
Proof.
  unfold selected_entry.
  destruct (entry_test v e_i915 "i915");
    [|destruct (entry_test v e_pvrsrvkm "pvrsrvkm");
      [|destruct (entry_test v e_emgd "emgd")]];
    cbn; intro H; try discriminate H; injection H as <-; tauto.
Qed.

(** X1.  Whatever the kernel reports and whatever the allocator does, a
    call of [va_DisplayContextGetDriverName] that reports success hands
    back one of the three backend names i965, pvr and emgd, and a call
    that hands back a string reports success. *)
Theorem GetDriverName_range
  (e : name_env) (st : State) (r : VAStatus * option string) (st' : State)
  (Hrun : va_DisplayContextGetDriverName e st = Some (r, st')) :
  (fst r = VA_STATUS_SUCCESS ->
   exists n, snd r = Some n /\ In n backend_names) /\
  (forall n, snd r = Some n -> fst r = VA_STATUS_SUCCESS /\ In n backend_names).
Proof.
  destruct (ctx_drm_state (ctx (dc st))) as [s|] eqn:Es.
  - rewrite (GetDriverName_run e st s Es) in Hrun. injection Hrun as <- _.
    unfold name_run.
    destruct (env_drmGetVersion e) as [v|]; cbn [fst snd];
      [|split; [discriminate | intros n H; discriminate]].
    pose proof (selected_name_range v) as Hsel.
    destruct (name (selected_entry v)) as [n|]; cbn [fst snd];
      [|split; [discriminate | intros n H; discriminate]].
    destruct (env_strdup e); cbn [fst snd];
      [|split; [discriminate | intros n' H; discriminate]].
    split.
    + intros _. exists n. split; [reflexivity | now apply Hsel].
    + intros n' H. injection H as <-. split; [reflexivity | now apply Hsel].
  - rewrite (GetDriverName_null e st Es) in Hrun. discriminate.
Qed.

Lemma GetDriverName_range_witness :
  va_DisplayContextGetDriverName (mk_name_env (Some (reported "pvrsrvkm")) true)
    (mk_State ready_context []) =
  Some ((VA_STATUS_SUCCESS, Some "pvr"),
        mk_State ready_context
          [C_drmGetVersion 5 (Some (reported "pvrsrvkm"));
           C_drmFreeVersion (reported "pvrsrvkm");
           C_strdup "pvr" (Some "pvr")]) /\
  exists n, Some "pvr" = Some n /\ In n backend_names.
Proof.
  assert (Hrun : va_DisplayContextGetDriverName
                   (mk_name_env (Some (reported "pvrsrvkm")) true)
                   (mk_State ready_context []) =
                 Some ((VA_STATUS_SUCCESS, Some "pvr"),
                       mk_State ready_context
                         [C_drmGetVersion 5 (Some (reported "pvrsrvkm"));
                          C_drmFreeVersion (reported "pvrsrvkm");
                          C_strdup "pvr" (Some "pvr")]))
    by (vm_compute; reflexivity).
  split; [exact Hrun|].
  exact (proj1 (GetDriverName_range _ _ _ _ Hrun) eq_refl).
Defined.

Lemma substring_head (n : nat) (s : string) (c : ascii) (k : string) :
  substring 0 (S n) s = String c k -> exists r, s = String c r.
Proof.
  destruct s as [|a s]; cbn; [discriminate|].
  intro H. injection H as -> _. eauto.
Qed.

Lemma entry_matches_head (v : drmVersion) (m : driver_name_map) (c : ascii)
  (k : string) (n : nat) :
  key m = Some (String c k) -> key_len m = Z.of_nat (S n) ->
  entry_matches v m -> exists r, v_name v = String c r.
Proof.
  intros Hk Hlen [k' [Hk' [_ Hsub]]]. rewrite Hk in Hk'. injection Hk' as <-.
  rewrite Hlen, Nat2Z.id in Hsub. exact (substring_head _ _ _ _ Hsub).
Qed.

(** X2.  The prefixes of the shipped table exclude one another: a reported
    name matches at most one entry, so that for this table the order of the
    entries never has to decide. *)
Theorem table_prefixes_disjoint
  (v : drmVersion) (m1 m2 : driver_name_map)
  (Hin1 : In m1 g_driver_name_map) (Hin2 : In m2 g_driver_name_map)
  (Hm1 : entry_matches v m1) (Hm2 : entry_matches v m2) :
  m1 = m2.
Proof.
  assert (H1 : entry_matches v e_i915 -> exists r, v_name v = String "i" r)
    by (apply (entry_matches_head v e_i915 "i" "915" 3); reflexivity).
  assert (H2 : entry_matches v e_pvrsrvkm -> exists r, v_name v = String "p" r)
    by (apply (entry_matches_head v e_pvrsrvkm "p" "vrsrvkm" 7); reflexivity).
  assert (H3 : entry_matches v e_emgd -> exists r, v_name v = String "e" r)
    by (apply (entry_matches_head v e_emgd "e" "mgd" 3); reflexivity).
  pose proof (end_no_match v) as H4.
  rewrite table_entries in Hin1, Hin2.
  destruct Hin1 as [<-|[<-|[<-|[<-|[]]]]]; destruct Hin2 as [<-|[<-|[<-|[<-|[]]]]];
    try reflexivity; try contradiction;
    repeat match goal with
           | H : entry_matches v ?m -> _, Hm : entry_matches v ?m |- _ =>
               destruct (H Hm) as [? ?]; clear H
           end; congruence.
Qed.

Lemma table_prefixes_disjoint_witness :
  In e_emgd g_driver_name_map /\ entry_matches (reported "emgd") e_emgd.
Proof.
  assert (Hin : In e_emgd g_driver_name_map) by (cbn; tauto).
  assert (Hm : entry_matches (reported "emgd") e_emgd).
  { exists "emgd". repeat split. cbn. lia. }
  pose proof (table_prefixes_disjoint (reported "emgd") e_emgd e_emgd Hin Hin Hm Hm).
  split; assumption.
Defined.

(** X3.  The length guard: when the record of the kernel gives its name a
    length below 4, no entry is tried against the text and the resolver
    reports the unknown error, whatever the text holds and whether or not
    memory is left. *)
Theorem GetDriverName_short_name
  (e : name_env) (st : State) (s : drm_state) (v : drmVersion)
  (Hstate : ctx_drm_state (ctx (dc st)) = Some s)
  (Hquery : env_drmGetVersion e = Some v)
  (Hshort : v_name_len v < 4) :
  va_DisplayContextGetDriverName e st =
  Some ((VA_STATUS_ERROR_UNKNOWN, None),
        mk_State (dc st)
          (log st ++ [C_drmGetVersion (fd s) (Some v); C_drmFreeVersion v])).
Proof.
  rewrite (GetDriverName_run e st s Hstate). unfold name_run. rewrite Hquery.
  assert (Hsel : selected_entry v = e_end).
  { unfold selected_entry, entry_test. cbn [key_len e_i915 e_pvrsrvkm e_emgd].
    assert (G4 : (v_name_len v >=? 4) = false) by (rewrite Z.geb_leb; apply Z.leb_gt; lia).
    assert (G8 : (v_name_len v >=? 8) = false) by (rewrite Z.geb_leb; apply Z.leb_gt; lia).
    now rewrite G4, G8. }
  rewrite Hsel. reflexivity.
Qed.

Lemma GetDriverName_short_name_witness :
  va_DisplayContextGetDriverName (mk_name_env (Some (mk_drmVersion 3 "i915")) true)
    (mk_State ready_context []) =
  Some ((VA_STATUS_ERROR_UNKNOWN, None),
        mk_State ready_context
          [C_drmGetVersion 5 (Some (mk_drmVersion 3 "i915"));
           C_drmFreeVersion (mk_drmVersion 3 "i915")]).
Proof.
  apply (GetDriverName_short_name (mk_name_env (Some (mk_drmVersion 3 "i915")) true)
           (mk_State ready_context []) (mk_drm_state 5 3) (mk_drmVersion 3 "i915")).
  - reflexivity.
  - reflexivity.
  - cbn. lia.
Defined.

(** ** Further properties of the callbacks *)

Lemma authenticated_event_in (evs : list wl_drm_event) :
  existsb is_authenticated_event evs = true <-> In Ev_authenticated evs.
Proof.
  rewrite existsb_exists. split.
  - intros [ev [Hin Hev]]. destruct ev; try discriminate. exact Hin.
  - intro H. exists Ev_authenticated. auto.
Qed.

(** The DRM state and the flag after a sequence of callbacks. *)
Lemma after_events_state (evs : list wl_drm_event) :
  forall (c : VADisplayContext) (s : drm_state),
    ctx_drm_state (ctx c) = Some s ->
    ctx_drm_state (ctx (after_events evs c)) =
      Some (mk_drm_state (fd_after evs (fd s)) (auth_type_after evs (auth_type s))) /\
    is_authenticated (wl_drm_ctx (after_events evs c)) =
      flag_after evs (is_authenticated (wl_drm_ctx c)).
Proof.
  unfold auth_type_after, flag_after.
  induction evs as [|ev evs IH]; intros c s Hs.
  - cbn. rewrite Hs. destruct s. auto.
  - cbn [after_events fold_left fd_after existsb].
    assert (Hstep :
      ctx_drm_state (ctx (after_event ev c)) =
        Some (mk_drm_state
                (match stored_fd ev with Some r => r | None => fd s end)
                (if is_authenticated_event ev then VA_DRM_AUTH_CUSTOM else auth_type s)) /\
      is_authenticated (wl_drm_ctx (after_event ev c)) =
        (if is_authenticated_event ev then 1 else is_authenticated (wl_drm_ctx c))).
    { destruct c as [[dpy ds] w g]. cbn in Hs. subst ds. destruct s as [d a].
      destruct ev as [device os| |]; cbn; auto.
      destruct (os_stat os) as [m|]; [destruct (S_ISCHR m)|]; cbn; auto. }
    destruct Hstep as [Hs1 Hf1].
    destruct (IH _ _ Hs1) as [Hs2 Hf2]. unfold after_events in Hs2, Hf2.
    rewrite Hs2, Hf2, Hf1. cbn [fd auth_type].
    unfold fd_after. destruct (is_authenticated_event ev); cbn [orb];
      destruct (existsb is_authenticated_event evs); auto.
Qed.

Lemma init_advertised_state (e : init_env) (c : VADisplayContext) :
  ctx_drm_state (ctx (init_advertised e c)) =
    Some (mk_drm_state (fd_after (env_roundtrip_device e) (-1))
            (auth_type_after (env_roundtrip_device e) 0)) /\
  is_authenticated (wl_drm_ctx (init_advertised e c)) =
    flag_after (env_roundtrip_device e) 0.
Proof.
  exact (after_events_state (env_roundtrip_device e) (init_bound e c)
           (mk_drm_state (-1) 0) eq_refl).
Qed.

Lemma init_confirmed_state (e : init_env) (c : VADisplayContext) :
  ctx_drm_state (ctx (init_confirmed e c)) =
    Some (mk_drm_state
            (fd_after (env_roundtrip_auth e) (fd_after (env_roundtrip_device e) (-1)))
            (auth_type_after (env_roundtrip_auth e)
               (auth_type_after (env_roundtrip_device e) 0))) /\
  is_authenticated (wl_drm_ctx (init_confirmed e c)) =
    flag_after (env_roundtrip_auth e) (flag_after (env_roundtrip_device e) 0).
Proof.
  destruct (init_advertised_state e c) as [Hs Hf].
  destruct (after_events_state (env_roundtrip_auth e) (init_advertised e c) _ Hs)
    as [Hs' Hf'].
  cbn [fd auth_type] in Hs'. rewrite Hf in Hf'. split; assumption.
Qed.

(** ** Further properties of the initializer *)

(** X5.  [va_wayland_drm_init] returns true exactly when the allocation
    succeeds, one of the two registry queries finds the interface, the
    library loads, its symbol resolves, the bind yields a proxy, the
    descriptor left by the advertisements of the first round trip is not
    negative, and the confirmation arrives in one of the two round trips;
    the context it was given plays no part. *)
Theorem init_returns_true_iff (e : init_env) (st : State) :
  exists r st',
    va_wayland_drm_init e st = Some (r, st') /\
    (r = true <->
     env_calloc e = true /\
     (env_get_global e <> 0 \/ env_get_global_retry e <> 0) /\
     env_dlopen e <> NULL /\
     env_dlsym e <> NULL /\
     env_bind e <> NULL /\
     0 <= fd_after (env_roundtrip_device e) (-1) /\
     In Ev_authenticated (env_roundtrip_device e ++ env_roundtrip_auth e)).
Proof.
  rewrite init_run_eq. eexists _, _. split; [reflexivity|].
  destruct (init_advertised_state e (dc st)) as [Ha _].
  destruct (init_confirmed_state e (dc st)) as [_ Hc].
  unfold init_run, current_fd. rewrite Ha, Hc. cbn [fd].
  unfold flag_after, registry_id. rewrite in_app_iff, <- !authenticated_event_in.
  destruct (env_calloc e); cbn [negb fst];
    [|split; [discriminate | intros [H _]; discriminate]].
  destruct (Z.eqb_spec (env_get_global e) 0) as [G1|G1];
    [destruct (Z.eqb_spec (env_get_global_retry e) 0) as [G2|G2]|
     destruct (Z.eqb_spec (env_get_global e) 0) as [G2|G2]; [contradiction|]];
    cbn [fst]; try (split; [discriminate | intros [_ [[H|H] _]]; contradiction]).
  all: destruct (Z.eqb_spec (env_dlopen e) NULL) as [D|D]; cbn [fst];
    [split; [discriminate | intros [_ [_ [H _]]]; contradiction]|].
  all: destruct (Z.eqb_spec (env_dlsym e) NULL) as [S|S]; cbn [fst];
    [split; [discriminate | intros [_ [_ [_ [H _]]]]; contradiction]|].
  all: destruct (Z.eqb_spec (env_bind e) NULL) as [B|B]; cbn [fst];
    [split; [discriminate | intros [_ [_ [_ [_ [H _]]]]]; contradiction]|].
  all: destruct (Z.ltb_spec (fd_after (env_roundtrip_device e) (-1)) 0) as [F|F];
    cbn [fst]; [split; [discriminate | intros [_ [_ [_ [_ [_ [H _]]]]]]; lia]|].
  all: destruct (existsb is_authenticated_event (env_roundtrip_auth e));
    destruct (existsb is_authenticated_event (env_roundtrip_device e));
    cbn [fst]; split; try discriminate; try tauto;
    try (intros [_ [_ [_ [_ [_ [_ [H|H]]]]]]]; discriminate).
Qed.

Lemma fd_after_no_device (evs : list wl_drm_event) :
  forall d, forallb (fun ev => negb (is_device_event ev)) evs = true ->
            fd_after evs d = d.
Proof.
  unfold fd_after.
  induction evs as [|ev evs IH]; intros d H; cbn in *; [reflexivity|].
  apply andb_prop in H. destruct H as [Hev Hevs].
  destruct ev; try discriminate; cbn; now apply IH.
Qed.

Lemma init_confirmed_frame (e : init_env) (c : VADisplayContext) :
  same_frame (init_bound e c) (init_advertised e c) /\
  same_frame (init_bound e c) (init_confirmed e c).
Proof.
  pose proof (after_events_frame (env_roundtrip_device e) (init_bound e c)) as F1.
  pose proof (after_events_frame (env_roundtrip_auth e) (init_advertised e c)) as F2.
  fold (init_advertised e c) in F1. fold (init_confirmed e c) in F2.
  split; [exact F1|]. unfold same_frame in *. intuition congruence.
Qed.

(** X6.  When [va_wayland_drm_init] returns true the context holds the
    proxy, the library handle and the interface descriptor it obtained, none
    of them null, the authenticated flag is 1 and the authentication type is
    [VA_DRM_AUTH_CUSTOM]; the descriptor is the one left by the
    advertisements of both round trips, which is not negative as long as the
    second round trip brings no further advertisement. *)
Theorem init_success_state
  (e : init_env) (st st' : State)
  (Hrun : va_wayland_drm_init e st = Some (true, st')) :
  drm (wl_drm_ctx (dc st')) = env_bind e /\ env_bind e <> NULL /\
  libEGL_handle (wl_drm_ctx (dc st')) = env_dlopen e /\ env_dlopen e <> NULL /\
  drm_interface (wl_drm_ctx (dc st')) = env_dlsym e /\ env_dlsym e <> NULL /\
  is_authenticated (wl_drm_ctx (dc st')) = 1 /\
  ctx_drm_state (ctx (dc st')) =
    Some (mk_drm_state
            (fd_after (env_roundtrip_auth e) (fd_after (env_roundtrip_device e) (-1)))
            VA_DRM_AUTH_CUSTOM) /\
  0 <= fd_after (env_roundtrip_device e) (-1) /\
  (forallb (fun ev => negb (is_device_event ev)) (env_roundtrip_auth e) = true ->
   exists s, ctx_drm_state (ctx (dc st')) = Some s /\ 0 <= fd s).
Proof.
  rewrite init_run_eq in Hrun. injection Hrun as Hr <-. cbn [dc].
  destruct (init_advertised_state e (dc st)) as [Ha _].
  destruct (init_confirmed_state e (dc st)) as [Hc Hf].
  destruct (init_confirmed_frame e (dc st)) as [_ [_ [_ [_ [F1 [F2 F3]]]]]].
  unfold init_run, current_fd in *. rewrite Ha in *. rewrite Hf in *. cbn [fd] in *.
  destruct (env_calloc e); cbn [negb fst snd] in *; [|discriminate].
  destruct (registry_id e =? 0); cbn [fst snd] in *; [discriminate|].
  destruct (Z.eqb_spec (env_dlopen e) NULL) as [D|D]; cbn [fst snd] in *; [discriminate|].
  destruct (Z.eqb_spec (env_dlsym e) NULL) as [S|S]; cbn [fst snd] in *; [discriminate|].
  destruct (Z.eqb_spec (env_bind e) NULL) as [B|B]; cbn [fst snd] in *; [discriminate|].
  destruct (Z.ltb_spec (fd_after (env_roundtrip_device e) (-1)) 0) as [F|F];
    cbn [fst snd] in *; [discriminate|].
  unfold flag_after, auth_type_after in *.
  destruct (existsb is_authenticated_event (env_roundtrip_auth e));
    destruct (existsb is_authenticated_event (env_roundtrip_device e));
    cbn [fst snd Z.eqb] in *; try discriminate;
    rewrite Hc, Hf, F1, F2, F3;
    (repeat split; try assumption; try reflexivity;
     intro Hno; eexists; split; [reflexivity|]; cbn [fd];
     rewrite (fd_after_no_device _ _ Hno); exact F).
Qed.

Lemma init_success_state_witness :
  exists st',
    va_wayland_drm_init env_success (mk_State fresh_context []) = Some (true, st') /\
    drm (wl_drm_ctx (dc st')) = 8192 /\
    ctx_drm_state (ctx (dc st')) = Some (mk_drm_state 5 VA_DRM_AUTH_CUSTOM).
Proof.
  assert (Hrun : va_wayland_drm_init env_success (mk_State fresh_context []) =
                 Some (true,
                       mk_State (snd (fst (init_run env_success fresh_context)))
                         ([] ++ snd (init_run env_success fresh_context))))
    by (vm_compute; reflexivity).
  eexists. split; [exact Hrun|].
  destruct (init_success_state _ _ _ Hrun) as [H1 [_ [_ [_ [_ [_ [_ [H2 _]]]]]]]].
  split; [exact H1 | exact H2].
Defined.

Lemma after_event_coupled (ev : wl_drm_event) (c : VADisplayContext) :
  auth_coupled c -> auth_coupled (after_event ev c).
Proof.
  intros [s [Hs H]]. destruct c as [[dpy ds] [fin [p a h i]] g]. cbn in Hs. subst ds.
  unfold auth_coupled. cbn in H.
  destruct ev as [device os| |]; cbn.
  - destruct (os_stat os) as [m|]; [destruct (S_ISCHR m)|]; cbn; eauto.
  - eauto.
  - eexists. split; [reflexivity|]. right. auto.
Qed.

Lemma after_events_coupled (evs : list wl_drm_event) :
  forall c, auth_coupled c -> auth_coupled (after_events evs c).
Proof.
  induction evs as [|ev evs IH]; intros c H; cbn; [exact H|].
  apply IH, after_event_coupled, H.
Qed.

Lemma init_run_coupled (e : init_env) (c : VADisplayContext) :
  env_calloc e = true -> auth_coupled (snd (fst (init_run e c))).
Proof.
  intro Halloc.
  assert (Hb : auth_coupled (init_allocated c) /\
               auth_coupled (init_loaded e c) /\
               auth_coupled (init_resolved e c) /\
               auth_coupled (init_bound e c)).
  { repeat split; (eexists; split; [reflexivity|]; left; split; reflexivity). }
  destruct Hb as [B1 [B2 [B3 B4]]].
  pose proof (after_events_coupled (env_roundtrip_device e) _ B4) as B5.
  fold (init_advertised e c) in B5.
  pose proof (after_events_coupled (env_roundtrip_auth e) _ B5) as B6.
  fold (init_confirmed e c) in B6.
  unfold init_run. rewrite Halloc. cbn [negb].
  repeat match goal with
         | |- context [if ?b then _ else _] => destruct b
         end; cbn [fst snd]; assumption.
Qed.

Lemma init_auth_coupled_state (e : init_env) (c : VADisplayContext) :
  env_calloc e = true ->
  exists s, ctx_drm_state (ctx (snd (fst (init_run e c)))) = Some s.
Proof.
  intro H. destruct (init_run_coupled e c H) as [s [Hs _]]. eauto.
Qed.

(** X7.  Whatever [va_wayland_drm_init] returns, once the DRM state is
    allocated the authenticated flag and the authentication type agree:
    the flag is 0 and the type 0, or the flag is 1 and the type
    [VA_DRM_AUTH_CUSTOM]. *)
Theorem init_auth_coupled
  (e : init_env) (st : State) (Halloc : env_calloc e = true) :
  exists r st',
    va_wayland_drm_init e st = Some (r, st') /\ auth_coupled (dc st').
Proof.
  rewrite init_run_eq. eexists _, _. split; [reflexivity|]. cbn [dc].
  exact (init_run_coupled e (dc st) Halloc).
Qed.

Lemma init_auth_coupled_witness :
  env_calloc env_silent_compositor = true /\
  exists r st',
    va_wayland_drm_init env_silent_compositor (mk_State fresh_context []) =
    Some (r, st') /\ auth_coupled (dc st').
Proof.
  split; [reflexivity|].
  exact (init_auth_coupled env_silent_compositor (mk_State fresh_context []) eq_refl).
Defined.

(** The paths of the initializer, each with the answers that select it. *)
Lemma init_run_cases (e : init_env) (c : VADisplayContext) :
  (env_calloc e = false /\ init_run e c = (false, init_entry c, [C_calloc false])) \/
  (env_calloc e = true /\
   ((registry_id e = 0 /\
     init_run e c = (false, init_allocated c, calls_registry e c)) \/
    (registry_id e <> 0 /\
     ((env_dlopen e = NULL /\
       init_run e c = (false, init_loaded e c, calls_loaded e c)) \/
      (env_dlopen e <> NULL /\
       ((env_dlsym e = NULL /\
         init_run e c = (false, init_resolved e c, calls_resolved e c)) \/
        (env_dlsym e <> NULL /\
         ((env_bind e = NULL /\
           init_run e c = (false, init_bound e c, calls_bound e c)) \/
          (env_bind e <> NULL /\
           (init_run e c = (false, init_advertised e c, calls_advertised e c) \/
            exists r, init_run e c =
                      (r, init_confirmed e c, calls_confirmed e c))))))))))).
Proof.
  unfold init_run.
  destruct (env_calloc e); cbn [negb]; [right; split; [reflexivity|] | left; auto].
  destruct (Z.eqb_spec (registry_id e) 0) as [R|R]; [left; auto | right; split; [exact R|]].
  destruct (Z.eqb_spec (env_dlopen e) NULL) as [D|D]; [left; auto | right; split; [exact D|]].
  destruct (Z.eqb_spec (env_dlsym e) NULL) as [S|S]; [left; auto | right; split; [exact S|]].
  destruct (Z.eqb_spec (env_bind e) NULL) as [B|B]; [left; auto | right; split; [exact B|]].
  destruct (current_fd (init_advertised e c) <? 0); [left; reflexivity | right].
  destruct (is_authenticated (wl_drm_ctx (init_confirmed e c)) =? 0); eauto.
Qed.

Lemma handler_calls_callback (ev : wl_drm_event) (c : VADisplayContext) (x : call) :
  In x (handler_calls ev c) -> callback_call (drm (wl_drm_ctx c)) x.
Proof.
  destruct ev as [device os| |]; cbn [handler_calls]; try (intros []).
  destruct (os_stat os) as [m|].
  - destruct (S_ISCHR m).
    + destruct (os_open os) as [n|]; cbn [In];
        intros [<-|[<-|H]]; cbn; auto;
        repeat (destruct H as [<-|H]; cbn; auto); try lia; try destruct H.
    + cbn [In]. intros [<-|[<-|[]]]; cbn; auto.
  - cbn [In]. intros [<-|[<-|[]]]; cbn; auto.
Qed.

Lemma dispatch_calls_callback (evs : list wl_drm_event) :
  forall (c : VADisplayContext) (x : call),
    In x (dispatch_calls evs c) -> callback_call (drm (wl_drm_ctx c)) x.
Proof.
  induction evs as [|ev evs IH]; intros c x; cbn [dispatch_calls In]; [intros []|].
  intros [<-|H]; [exact I|].
  apply in_app_or in H. destruct H as [H|H].
  - exact (handler_calls_callback ev c x H).
  - destruct (after_event_frame ev c) as [_ [_ [_ [F _]]]].
    rewrite <- F. exact (IH _ x H).
Qed.

(** A property of every call of a run follows from the property of each
    call site, taken under the answers that lead to it. *)
Lemma init_run_calls (Q : call -> Prop) (e : init_env) (c : VADisplayContext) :
  Q (C_calloc (env_calloc e)) ->
  (env_calloc e = true ->
   Q (C_wl_display_get_global (native_dpy (ctx c)) "wl_drm" 1 (env_get_global e))) ->
  (env_calloc e = true -> env_get_global e = 0 ->
   Q (C_wl_display_roundtrip (native_dpy (ctx c))) /\
   Q (C_wl_display_get_global (native_dpy (ctx c)) "wl_drm" 1 (env_get_global_retry e))) ->
  (env_calloc e = true -> registry_id e <> 0 ->
   Q (C_dlopen LIBEGL_NAME (env_dlopen e))) ->
  (env_calloc e = true -> registry_id e <> 0 -> env_dlopen e <> NULL ->
   Q (C_dlsym (env_dlopen e) "wl_drm_interface" (env_dlsym e))) ->
  (env_calloc e = true -> registry_id e <> 0 -> env_dlopen e <> NULL ->
   env_dlsym e <> NULL ->
   Q (C_wl_display_bind (native_dpy (ctx c)) (registry_id e) (env_dlsym e) (env_bind e))) ->
  (env_calloc e = true -> registry_id e <> 0 -> env_dlopen e <> NULL ->
   env_dlsym e <> NULL -> env_bind e <> NULL ->
   Q (C_wl_drm_add_listener (env_bind e) (env_add_listener e)) /\
   Q (C_wl_display_roundtrip (native_dpy (ctx c))) /\
   forall x, callback_call (env_bind e) x -> Q x) ->
  forall x, In x (snd (init_run e c)) -> Q x.
Proof.
  intros Hcalloc Hglobal Hretry Hload Hsym Hbind Hlisten x.
  assert (Hreg : In x (calls_registry e c) -> env_calloc e = true -> Q x).
  { unfold calls_registry, registry_calls. intros H Hc. rewrite Hc in Hcalloc.
    destruct H as [<-|[<-|H]]; [assumption | auto |].
    destruct (Z.eqb_spec (env_get_global e) 0) as [G|G]; [|destruct H].
    destruct (Hretry Hc G) as [Q1 Q2]. destruct H as [<-|[<-|[]]]; assumption. }
  assert (D1 : forall y, In y (dispatch_calls (env_roundtrip_device e) (init_bound e c)) ->
                         callback_call (env_bind e) y).
  { intros y Hy. exact (dispatch_calls_callback _ _ _ Hy). }
  assert (D2 : forall y, In y (dispatch_calls (env_roundtrip_auth e) (init_advertised e c)) ->
                         callback_call (env_bind e) y).
  { intros y Hy. destruct (init_confirmed_frame e c) as [[_ [_ [_ [F _]]]] _].
    pose proof (dispatch_calls_callback _ _ _ Hy) as H. rewrite F in H. exact H. }
  destruct (init_run_cases e c)
    as [[Hc ->]|[Hc [[R ->]|[R [[D ->]|[D [[S ->]|[S [[B ->]|[B [->|[r ->]]]]]]]]]]]];
    cbn [snd].
  - rewrite Hc in Hcalloc. intros [<-|[]]. exact Hcalloc.
  - auto.
  - unfold calls_loaded. intro H. apply in_app_or in H.
    destruct H as [H|[<-|[]]]; auto.
  - unfold calls_resolved, calls_loaded. intro H.
    repeat (apply in_app_or in H; destruct H as [H|H]); auto;
      destruct H as [<-|[]]; auto.
  - unfold calls_bound, calls_resolved, calls_loaded. intro H.
    repeat (apply in_app_or in H; destruct H as [H|H]); auto;
      destruct H as [<-|[]]; auto.
  - destruct (Hlisten Hc R D S B) as [Q1 [Q2 Q3]].
    unfold calls_advertised, calls_bound, calls_resolved, calls_loaded. intro H.
    repeat (apply in_app_or in H; destruct H as [H|H]); auto;
      try (destruct H as [<-|[]]; now auto).
    destruct H as [<-|[<-|H]]; auto.
  - destruct (Hlisten Hc R D S B) as [Q1 [Q2 Q3]].
    unfold calls_confirmed, calls_advertised, calls_bound, calls_resolved, calls_loaded.
    intro H.
    repeat (apply in_app_or in H; destruct H as [H|H]); auto;
      try (destruct H as [<-|[]]; now auto).
    + destruct H as [<-|[<-|H]]; auto.
    + destruct H as [<-|H]; auto.
Qed.

(** X8.  [va_wayland_drm_init] makes no release call: on no path, failing
    or not, does it destroy the proxy, close the library, close a
    descriptor or free the DRM state. *)
Theorem init_never_releases (e : init_env) (st : State) :
  exists r st' tr,
    va_wayland_drm_init e st = Some (r, st') /\
    log st' = (log st ++ tr)%list /\
    forall x, In x tr -> is_release x = false.
Proof.
  rewrite init_run_eq. eexists _, _, _. split; [reflexivity|]. cbn [log].
  split; [reflexivity|].
  apply (init_run_calls (fun x => is_release x = false)); try reflexivity;
    try (intros; repeat split; reflexivity).
  intros _ _ _ _ _. repeat split. intros x Hx. destruct x; try reflexivity; destruct Hx.
Qed.



(** ** Initialization followed by finalization *)

Lemma calls_stages_incl (e : init_env) (c : VADisplayContext) :
  incl (calls_registry e c) (calls_loaded e c) /\
  incl (calls_loaded e c) (calls_resolved e c) /\
  incl (calls_resolved e c) (calls_bound e c) /\
  incl (calls_bound e c) (calls_advertised e c) /\
  incl (calls_advertised e c) (calls_confirmed e c).
Proof.
  unfold calls_confirmed, calls_advertised, calls_bound, calls_resolved, calls_loaded.
  repeat split; apply incl_appl, incl_refl.
Qed.

Lemma calloc_call_in (e : init_env) (c : VADisplayContext) :
  In (C_calloc true) (calls_registry e c).
Proof. now left. Qed.

Lemma dlopen_call_in (e : init_env) (c : VADisplayContext) :
  In (C_dlopen LIBEGL_NAME (env_dlopen e)) (calls_loaded e c).
Proof. unfold calls_loaded. apply in_or_app. right. now left. Qed.

Lemma bind_call_in (e : init_env) (c : VADisplayContext) :
  In (C_wl_display_bind (native_dpy (ctx c)) (registry_id e) (env_dlsym e) (env_bind e))
     (calls_bound e c).
Proof. unfold calls_bound. apply in_or_app. right. now left. Qed.

(** Where a call of a run comes from: the answers that led to its site. *)
Lemma init_run_call_sites (e : init_env) (c : VADisplayContext) (x : call) :
  In x (snd (init_run e c)) ->
  (x = C_calloc true -> env_calloc e = true) /\
  (forall f h, x = C_dlopen f h ->
     h = env_dlopen e /\ env_calloc e = true /\ registry_id e <> 0) /\
  (forall dpy id i p, x = C_wl_display_bind dpy id i p ->
     p = env_bind e /\ env_calloc e = true /\ registry_id e <> 0 /\
     env_dlopen e <> NULL /\ env_dlsym e <> NULL).
Proof.
  apply (init_run_calls
           (fun x =>
              (x = C_calloc true -> env_calloc e = true) /\
              (forall f h, x = C_dlopen f h ->
                 h = env_dlopen e /\ env_calloc e = true /\ registry_id e <> 0) /\
              (forall dpy id i p, x = C_wl_display_bind dpy id i p ->
                 p = env_bind e /\ env_calloc e = true /\ registry_id e <> 0 /\
                 env_dlopen e <> NULL /\ env_dlsym e <> NULL))).
  - repeat split; try (intros; discriminate). intro H. now injection H.
  - intros. repeat split; intros; discriminate.
  - intros. repeat split; intros; discriminate.
  - intros Hc R. split; [discriminate|]. split; [|intros; discriminate].
    intros f h H. injection H as _ <-. auto.
  - intros. repeat split; intros; discriminate.
  - intros Hc R D S. split; [discriminate|]. split; [intros; discriminate|].
    intros dpy id i p H. injection H as _ _ _ <-. auto.
  - intros Hc R D S B. split; [|split].
    + repeat split; intros; discriminate.
    + repeat split; intros; discriminate.
    + intros y Hy. destruct y; cbn in Hy; try contradiction;
        repeat split; intros; discriminate.
Qed.

(** What the context holds at the end of a run, against what the run
    acquired. *)
Lemma init_run_held (e : init_env) (c : VADisplayContext) :
  holds_nothing c ->
  (forall p, (p = drm (wl_drm_ctx (snd (fst (init_run e c)))) /\ p <> NULL) <->
             (p <> NULL /\
              exists dpy id i, In (C_wl_display_bind dpy id i p) (snd (init_run e c)))) /\
  (forall h, (h = libEGL_handle (wl_drm_ctx (snd (fst (init_run e c)))) /\ h <> NULL) <->
             (h <> NULL /\ exists f, In (C_dlopen f h) (snd (init_run e c)))) /\
  ((exists s, ctx_drm_state (ctx (snd (fst (init_run e c)))) = Some s) <->
   In (C_calloc true) (snd (init_run e c))).
Proof.
  intros [Hh Hs].
  pose proof (init_run_call_sites e c) as Hsites.
  destruct (calls_stages_incl e c) as [I1 [I2 [I3 [I4 I5]]]].
  destruct (init_confirmed_frame e c) as [[_ [_ [_ [A1 [A2 _]]]]] [_ [_ [_ [C1 [C2 _]]]]]].
  pose proof (calloc_call_in e c) as Mc.
  pose proof (dlopen_call_in e c) as Ml.
  pose proof (bind_call_in e c) as Mb.
  assert (Sa : exists s, ctx_drm_state (ctx (init_advertised e c)) = Some s)
    by (destruct (init_advertised_state e c) as [H _]; eauto).
  assert (Sc : exists s, ctx_drm_state (ctx (init_confirmed e c)) = Some s)
    by (destruct (init_confirmed_state e c) as [H _]; eauto).
  set (c1 := snd (fst (init_run e c))) in *.
  set (tr := snd (init_run e c)) in *.
  assert (Kb :
    (drm (wl_drm_ctx c1) = env_bind e /\
     In (C_wl_display_bind (native_dpy (ctx c)) (registry_id e) (env_dlsym e)
           (env_bind e)) tr) \/
    (drm (wl_drm_ctx c1) = NULL /\
     ~ (env_calloc e = true /\ registry_id e <> 0 /\ env_dlopen e <> NULL /\
        env_dlsym e <> NULL))).
  { subst c1 tr.
    destruct (init_run_cases e c)
      as [[Hc E]|[Hc [[R E]|[R [[D E]|[D [[S E]|[S [[B E]|[B [E|[r E]]]]]]]]]]]];
      rewrite E; cbn [fst snd].
    - right. split; [reflexivity | intros [H _]; congruence].
    - right. split; [reflexivity | intros [_ [H _]]; contradiction].
    - right. split; [reflexivity | intros [_ [_ [H _]]]; contradiction].
    - right. split; [reflexivity | intros [_ [_ [_ H]]]; contradiction].
    - left. split; [reflexivity | exact Mb].
    - left. split; [rewrite A1; reflexivity | apply I4; exact Mb].
    - left. split; [rewrite C1; reflexivity | apply I5, I4; exact Mb]. }
  assert (Kl :
    (libEGL_handle (wl_drm_ctx c1) = env_dlopen e /\
     In (C_dlopen LIBEGL_NAME (env_dlopen e)) tr) \/
    (libEGL_handle (wl_drm_ctx c1) = NULL /\
     ~ (env_calloc e = true /\ registry_id e <> 0))).
  { subst c1 tr.
    destruct (init_run_cases e c)
      as [[Hc E]|[Hc [[R E]|[R [[D E]|[D [[S E]|[S [[B E]|[B [E|[r E]]]]]]]]]]]];
      rewrite E; cbn [fst snd].
    - right. split; [exact Hh | intros [H _]; congruence].
    - right. split; [exact Hh | intros [_ H]; contradiction].
    - left. split; [reflexivity | exact Ml].
    - left. split; [reflexivity | apply I2; exact Ml].
    - left. split; [reflexivity | apply I3, I2; exact Ml].
    - left. split; [rewrite A2; reflexivity | apply I4, I3, I2; exact Ml].
    - left. split; [rewrite C2; reflexivity | apply I5, I4, I3, I2; exact Ml]. }
  assert (Ks :
    ((exists s, ctx_drm_state (ctx c1) = Some s) /\ In (C_calloc true) tr) \/
    (ctx_drm_state (ctx c1) = None /\ env_calloc e = false)).
  { subst c1 tr.
    destruct (init_run_cases e c)
      as [[Hc E]|[Hc [[R E]|[R [[D E]|[D [[S E]|[S [[B E]|[B [E|[r E]]]]]]]]]]]];
      rewrite E; cbn [fst snd].
    - right. split; [exact Hs | exact Hc].
    - left. split; [eexists; reflexivity | exact Mc].
    - left. split; [eexists; reflexivity | apply I1; exact Mc].
    - left. split; [eexists; reflexivity | apply I2, I1; exact Mc].
    - left. split; [eexists; reflexivity | apply I3, I2, I1; exact Mc].
    - left. split; [exact Sa | apply I4, I3, I2, I1; exact Mc].
    - left. split; [exact Sc | apply I5, I4, I3, I2, I1; exact Mc]. }
  split; [|split].
  - intro p. split.
    + intros [-> Hn]. split; [exact Hn|].
      destruct Kb as [[Hd Hin]|[Hnull _]]; [|contradiction].
      rewrite Hd. eauto.
    + intros [Hn [dpy [id [i Hin]]]]. split; [|exact Hn].
      destruct (Hsites _ Hin) as [_ [_ Hb]].
      destruct (Hb _ _ _ _ eq_refl) as [-> Hreach].
      destruct Kb as [[Hd _]|[_ Hnot]]; [now rewrite Hd | contradiction].
  - intro h. split.
    + intros [-> Hn]. split; [exact Hn|].
      destruct Kl as [[Hd Hin]|[Hnull _]]; [|contradiction].
      rewrite Hd. eauto.
    + intros [Hn [f Hin]]. split; [|exact Hn].
      destruct (Hsites _ Hin) as [_ [Hl _]].
      destruct (Hl _ _ eq_refl) as [-> Hreach].
      destruct Kl as [[Hd _]|[_ Hnot]]; [now rewrite Hd | contradiction].
  - split.
    + intros [s Hs1]. destruct Ks as [[_ Hin]|[Hnone _]]; [exact Hin | congruence].
    + intro Hin. destruct (Hsites _ Hin) as [Hc _]. specialize (Hc eq_refl).
      destruct Ks as [[Hex _]|[_ Hf]]; [exact Hex | congruence].
Qed.

(** The descriptor the calls of a run leave stored. *)
Lemma last_open_app (l1 l2 : list call) (d : Z) :
  last_open (l1 ++ l2) d = last_open l2 (last_open l1 d).
Proof. unfold last_open. apply fold_left_app. Qed.

Lemma handler_calls_last_open (ev : wl_drm_event) (c : VADisplayContext) (d : Z) :
  last_open (handler_calls ev c) d =
  match stored_fd ev with Some r => r | None => d end.
Proof.
  destruct ev as [device os| |]; cbn [handler_calls stored_fd]; try reflexivity.
  destruct (os_stat os) as [m|]; [|reflexivity].
  destruct (S_ISCHR m); [|reflexivity].
  destruct (os_open os); reflexivity.
Qed.

Lemma dispatch_calls_last_open (evs : list wl_drm_event) :
  forall (c : VADisplayContext) (d : Z),
    last_open (dispatch_calls evs c) d = fd_after evs d.
Proof.
  induction evs as [|ev evs IH]; intros c d; [reflexivity|].
  cbn [dispatch_calls].
  change (last_open (C_callback ev ::
                     handler_calls ev c ++ dispatch_calls evs (after_event ev c)) d)
    with (last_open (handler_calls ev c ++ dispatch_calls evs (after_event ev c)) d).
  rewrite last_open_app, handler_calls_last_open, IH. reflexivity.
Qed.

Lemma calls_bound_last_open (e : init_env) (c : VADisplayContext) :
  last_open (calls_registry e c) (-1) = -1 /\
  last_open (calls_loaded e c) (-1) = -1 /\
  last_open (calls_resolved e c) (-1) = -1 /\
  last_open (calls_bound e c) (-1) = -1.
Proof.
  assert (H : last_open (calls_registry e c) (-1) = -1).
  { unfold calls_registry, registry_calls.
    destruct (env_get_global e =? 0); reflexivity. }
  unfold calls_bound, calls_resolved, calls_loaded.
  rewrite !last_open_app, H. repeat split.
Qed.

Lemma init_run_last_open (e : init_env) (c : VADisplayContext) :
  ctx_drm_state (ctx c) = None ->
  current_fd (snd (fst (init_run e c))) = last_open (snd (init_run e c)) (-1).
Proof.
  intro Hs.
  destruct (calls_bound_last_open e c) as [L1 [L2 [L3 L4]]].
  destruct (init_advertised_state e c) as [Sa _].
  destruct (init_confirmed_state e c) as [Sc _].
  assert (La : last_open (calls_advertised e c) (-1) =
               fd_after (env_roundtrip_device e) (-1)).
  { unfold calls_advertised. rewrite last_open_app, L4.
    exact (dispatch_calls_last_open _ _ _). }
  destruct (init_run_cases e c)
    as [[Hc E]|[Hc [[R E]|[R [[D E]|[D [[S E]|[S [[B E]|[B [E|[r E]]]]]]]]]]]];
    rewrite E; cbn [fst snd].
  - destruct c as [[dpy ds] w g]. cbn in Hs. subst ds. reflexivity.
  - now rewrite L1.
  - now rewrite L2.
  - now rewrite L3.
  - now rewrite L4.
  - rewrite La. unfold current_fd. now rewrite Sa.
  - unfold calls_confirmed. rewrite last_open_app, La.
    unfold current_fd. rewrite Sc. cbn [fd].
    symmetry. exact (dispatch_calls_last_open _ _ _).
Qed.

(** X10.  On a context that holds no library handle and no DRM state, a
    run of [va_wayland_drm_init], whatever it returns, followed by
    [va_wayland_drm_finalize]: the proxy is destroyed exactly when the bind
    returned one, the library closed exactly when it was loaded, the DRM
    state freed exactly when it was allocated, and a descriptor is closed
    exactly when it is the result of the last [open] of the run and that
    [open] succeeded, so that a descriptor an earlier [open] returned and a
    later advertisement overwrote is not closed; a descriptor that is
    closed is one that [open] returned.  Afterwards the context holds
    nothing again. *)
Theorem init_then_finalize_releases
  (e : init_env) (st : State) (Hclean : holds_nothing (dc st)) :
  exists r st1 st2 tr1 tr2,
    va_wayland_drm_init e st = Some (r, st1) /\
    va_wayland_drm_finalize st1 = Some (tt, st2) /\
    log st1 = (log st ++ tr1)%list /\
    log st2 = (log st1 ++ tr2)%list /\
    (forall p, In (C_wl_drm_destroy p) tr2 <->
               p <> NULL /\ exists dpy id i, In (C_wl_display_bind dpy id i p) tr1) /\
    (forall h, In (C_dlclose h) tr2 <->
               h <> NULL /\ exists f, In (C_dlopen f h) tr1) /\
    ((exists b, In (C_free b) tr2) <-> In (C_calloc true) tr1) /\
    (forall d, In (C_close d) tr2 <-> d = last_open tr1 (-1) /\ 0 <= d) /\
    (forall d, In (C_close d) tr2 ->
               exists path n, In (C_open path (Some n)) tr1 /\ d = Z.of_N n) /\
    holds_nothing (dc st2) /\
    drm (wl_drm_ctx (dc st2)) = NULL.
Proof.
  rewrite init_run_eq. eexists _, _, _, _, _. split; [reflexivity|].
  rewrite finalize_run. split; [reflexivity|]. cbn [dc log].
  split; [reflexivity|]. split; [reflexivity|].
  destruct (init_run_held e (dc st) Hclean) as [Hb [Hl Hs]].
  split; [|split; [|split; [|split; [|split; [|split]]]]].
  - intro p. rewrite finalize_calls_destroy. apply Hb.
  - intro h. rewrite finalize_calls_dlclose. apply Hl.
  - rewrite <- Hs. split.
    + intros [b Hin]. apply finalize_calls_free in Hin.
      destruct Hin as [s [Hst _]]. eauto.
    + intros [s Hst].
      exists (mk_drm_state (if fd s >=? 0 then -1 else fd s) (auth_type s)).
      apply finalize_calls_free. exists s. auto.
  - intro d. rewrite finalize_calls_close.
    rewrite <- (init_run_last_open e (dc st) (proj2 Hclean)).
    unfold current_fd. split.
    + intros [s [Hst [-> Hge]]]. rewrite Hst. auto.
    + intros [-> Hge].
      destruct (ctx_drm_state (ctx (snd (fst (init_run e (dc st)))))) as [s|];
        [exists s; auto | lia].
  - intros d Hin. apply finalize_calls_close in Hin.
    destruct Hin as [s [Hst [-> Hge]]].
    assert (Hinv : drm_invariant (ctx_drm_state (ctx (dc st))) []).
    { destruct Hclean as [_ Hnone]. rewrite Hnone. intros s' Hs'. discriminate. }
    pose proof (init_run_invariant e (dc st) [] Hinv) as Hfin.
    destruct (Hfin s Hst) as [Hopen _]. exact (Hopen Hge).
  - split; reflexivity.
  - reflexivity.
Qed.

Lemma init_then_finalize_releases_witness :
  holds_nothing (dc (mk_State fresh_context [])) /\
  exists st1 st2,
    va_wayland_drm_init env_two_devices (mk_State fresh_context []) =
      Some (true, st1) /\
    In (C_open "/dev/dri/card0" (Some 5%N)) (log st1) /\
    In (C_open "/dev/dri/card1" (Some 6%N)) (log st1) /\
    va_wayland_drm_finalize st1 = Some (tt, st2) /\
    log st2 = (log st1 ++ [C_wl_drm_destroy 8192; C_dlclose 12288; C_close 6;
                            C_free (mk_drm_state (-1) 3)])%list.
Proof.
  assert (Hclean : holds_nothing (dc (mk_State fresh_context [])))
    by (split; reflexivity).
  split; [exact Hclean|].
  destruct (init_then_finalize_releases env_two_devices
              (mk_State fresh_context []) Hclean)
    as [r [st1 [st2 [tr1 [tr2 [Hinit [Hfin _]]]]]]].
  pose proof Hinit as Hi. vm_compute in Hi. injection Hi as Hr Hst1.
  exists st1, st2. subst r. split; [exact Hinit|].
  pose proof Hfin as Hf. rewrite <- Hst1 in Hf. vm_compute in Hf.
  injection Hf as Hst2.
  split; [rewrite <- Hst1; cbn; tauto|].
  split; [rewrite <- Hst1; cbn; tauto|].
  split; [exact Hfin|].
  rewrite <- Hst2, <- Hst1. reflexivity.
Defined.

(** ** Pixel-format advertisements *)

Lemma after_events_without_formats (evs : list wl_drm_event) :
  forall c, after_events (filter not_format evs) c = after_events evs c.
Proof.
  induction evs as [|ev evs IH]; intro c; cbn [filter]; [reflexivity|].
  destruct ev as [device os|f|]; cbn [not_format is_format_event negb];
    cbn [after_events fold_left]; try apply IH.
Qed.

Lemma handler_calls_not_format (ev : wl_drm_event) (c : VADisplayContext) :
  filter not_format_callback (handler_calls ev c) = handler_calls ev c.
Proof.
  destruct ev as [device os| |]; cbn [handler_calls]; try reflexivity.
  destruct (os_stat os) as [m|]; [|reflexivity].
  destruct (S_ISCHR m); [|reflexivity].
  destruct (os_open os); reflexivity.
Qed.

Lemma dispatch_calls_without_formats (evs : list wl_drm_event) :
  forall c, dispatch_calls (filter not_format evs) c =
            filter not_format_callback (dispatch_calls evs c).
Proof.
  induction evs as [|ev evs IH]; intro c; cbn [filter dispatch_calls]; [reflexivity|].
  rewrite filter_app, handler_calls_not_format, <- IH.
  destruct ev as [device os|f|]; reflexivity.
Qed.

(** X11.  Pixel-format advertisements are ignored: with them taken out of
    both round trips [va_wayland_drm_init] returns the same value and
    leaves the same context, and makes the same calls, the entries of the
    format callback apart. *)
Theorem init_ignores_formats (e : init_env) (st : State) :
  exists r st1 st2 tr,
    va_wayland_drm_init e st = Some (r, st1) /\
    va_wayland_drm_init (without_formats e) st = Some (r, st2) /\
    dc st2 = dc st1 /\
    log st1 = (log st ++ tr)%list /\
    log st2 = (log st ++ filter not_format_callback tr)%list.
Proof.
  rewrite !init_run_eq.
  set (e' := without_formats e). set (c := dc st).
  assert (Ha : init_advertised e' c = init_advertised e c).
  { unfold init_advertised, e'. cbn [without_formats env_roundtrip_device].
    apply after_events_without_formats. }
  assert (Hc : init_confirmed e' c = init_confirmed e c).
  { unfold init_confirmed. rewrite Ha. unfold e'.
    cbn [without_formats env_roundtrip_auth]. apply after_events_without_formats. }
  assert (Hreg : filter not_format_callback (calls_registry e c) = calls_registry e c).
  { unfold calls_registry, registry_calls. now destruct (env_get_global e =? 0). }
  assert (L1 : calls_registry e' c = filter not_format_callback (calls_registry e c))
    by (rewrite Hreg; reflexivity).
  assert (L2 : calls_loaded e' c = filter not_format_callback (calls_loaded e c)).
  { unfold calls_loaded. now rewrite filter_app, <- L1. }
  assert (L3 : calls_resolved e' c = filter not_format_callback (calls_resolved e c)).
  { unfold calls_resolved. now rewrite filter_app, <- L2. }
  assert (L4 : calls_bound e' c = filter not_format_callback (calls_bound e c)).
  { unfold calls_bound. now rewrite filter_app, <- L3. }
  assert (L5 : calls_advertised e' c = filter not_format_callback (calls_advertised e c)).
  { unfold calls_advertised. rewrite filter_app, <- L4. cbn [filter not_format_callback].
    rewrite <- dispatch_calls_without_formats. reflexivity. }
  assert (L6 : calls_confirmed e' c = filter not_format_callback (calls_confirmed e c)).
  { unfold calls_confirmed. rewrite filter_app, <- L5. cbn [filter not_format_callback].
    rewrite <- dispatch_calls_without_formats, Ha. reflexivity. }
  assert (Hrun : init_run e' c =
                 (fst (fst (init_run e c)), snd (fst (init_run e c)),
                  filter not_format_callback (snd (init_run e c)))).
  { unfold init_run. rewrite Ha, Hc, L1, L2, L3, L4, L5, L6.
    change (env_calloc e') with (env_calloc e).
    change (registry_id e') with (registry_id e).
    change (env_dlopen e') with (env_dlopen e).
    change (env_dlsym e') with (env_dlsym e).
    change (env_bind e') with (env_bind e).
    change (init_allocated c) with (init_allocated c).
    change (init_loaded e' c) with (init_loaded e c).
    change (init_resolved e' c) with (init_resolved e c).
    change (init_bound e' c) with (init_bound e c).
    repeat match goal with
           | |- context [if ?b then _ else _] => destruct b
           end; reflexivity. }
  rewrite Hrun. cbn [fst snd]. eexists _, _, _, _.
  repeat split; reflexivity.
Qed.

(** ** The device callback and the round trip *)

Lemma drm_handle_device_run (device : string) (os : os_answers) (st : State)
  (s : drm_state) :
  ctx_drm_state (ctx (dc st)) = Some s ->
  drm_handle_device device os st =
  Some (tt, mk_State (after_event (Ev_device device os) (dc st))
              (log st ++ handler_calls (Ev_device device os) (dc st))).
Proof.
  destruct st as [[[dpy ds] [fin [p a h i]] gdn] l]. cbn. intros ->.
  unfold drm_handle_device, after_event, handler_calls, stored_fd.
  unfold_prims. simpl_fields.
  destruct (os_stat os) as [m|]; simpl_fields.
  - destruct (S_ISCHR m); simpl_fields.
    + destruct (os_open os) as [n|]; simpl_fields.
      * destruct (Z.ltb_spec (Z.of_N n) 0) as [Hn|Hn]; [lia|].
        simpl_fields. now rewrite <- !app_assoc.
      * cbn. now rewrite <- !app_assoc.
    + destruct s. now rewrite <- !app_assoc.
  - destruct s. now rewrite <- !app_assoc.
Qed.

(** X12.  On a context that has its DRM state, [drm_handle_device] either
    logs one error or sends one authentication request, never both: it
    tries [open] only on a path that [stat] reports as a character device,
    and asks for the magic and sends it, to the proxy of the context, only
    when [open] succeeded; the descriptor is overwritten exactly when [open]
    was tried, with -1 when it failed, and nothing else of the context
    changes. *)
Theorem drm_handle_device_outcome
  (device : string) (os : os_answers) (st : State) (s : drm_state)
  (Hstate : ctx_drm_state (ctx (dc st)) = Some s) :
  exists st' tr,
    drm_handle_device device os st = Some (tt, st') /\
    log st' = (log st ++ tr)%list /\
    (List.length (filter is_error tr) + List.length (filter is_authenticate tr) = 1)%nat /\
    (existsb is_open tr = true <->
     exists m, os_stat os = Some m /\ S_ISCHR m = true) /\
    (existsb is_authenticate tr = true <->
     exists m n, os_stat os = Some m /\ S_ISCHR m = true /\ os_open os = Some n) /\
    (forall p magic, In (C_wl_drm_authenticate p magic) tr ->
       p = drm (wl_drm_ctx (dc st)) /\ magic = snd (os_getmagic os) /\
       exists n, os_open os = Some n /\
                 In (C_drmGetMagic (Z.of_N n) (fst (os_getmagic os)) magic) tr) /\
    ctx_drm_state (ctx (dc st')) =
      Some (mk_drm_state
              (match stored_fd (Ev_device device os) with
               | Some r => r
               | None => fd s
               end) (auth_type s)) /\
    same_frame (dc st) (dc st') /\
    is_authenticated (wl_drm_ctx (dc st')) = is_authenticated (wl_drm_ctx (dc st)).
Proof.
  rewrite (drm_handle_device_run device os st s Hstate).
  eexists _, _. split; [reflexivity|]. cbn [dc log]. split; [reflexivity|].
  pose proof (after_event_frame (Ev_device device os) (dc st)) as Hframe.
  destruct st as [[[dpy ds] [fin [p a h i]] gdn] l]. cbn in Hstate. subst ds.
  destruct s as [d t].
  cbn [handler_calls after_event stored_fd dc] in *.
  destruct (os_stat os) as [m|] eqn:Est.
  - destruct (S_ISCHR m) eqn:Echr.
    + destruct (os_open os) as [n|] eqn:Eopen.
      * split; [reflexivity|]. split; [split; eauto|]. split; [split; eauto|].
        split; [|split; [reflexivity|split; [exact Hframe|reflexivity]]].
        intros q magic H. cbn in H.
        destruct H as [H|[H|[H|[H|[]]]]]; try discriminate H.
        injection H as <- <-. split; [reflexivity|]. split; [reflexivity|].
        exists n. split; [reflexivity|]. cbn. tauto.
      * split; [reflexivity|]. split; [split; eauto|].
        split; [split; [discriminate | intros [m' [n' [_ [_ H]]]]; discriminate]|].
        split; [|split; [reflexivity|split; [exact Hframe|reflexivity]]].
        intros q magic H. cbn in H.
        destruct H as [H|[H|[H|[]]]]; discriminate H.
    + split; [reflexivity|].
      split; [split; [discriminate | intros [m' [H1 H2]]; congruence]|].
      split; [split; [discriminate | intros [m' [n' [H1 [H2 _]]]]; congruence]|].
      split; [|split; [reflexivity|split; [exact Hframe|reflexivity]]].
      intros q magic H. cbn in H. destruct H as [H|[H|[]]]; discriminate H.
  - split; [reflexivity|].
    split; [split; [discriminate | intros [m' [H1 H2]]; congruence]|].
    split; [split; [discriminate | intros [m' [n' [H1 [H2 _]]]]; congruence]|].
    split; [|split; [reflexivity|split; [exact Hframe|reflexivity]]].
    intros q magic H. cbn in H. destruct H as [H|[H|[]]]; discriminate H.
Qed.

Lemma drm_handle_device_outcome_witness :
  ctx_drm_state (ctx (dc (mk_State ready_context []))) = Some (mk_drm_state 5 3) /\
  exists st',
    drm_handle_device "/dev/dri/card9" missing_node (mk_State ready_context []) =
      Some (tt, st') /\
    dc st' = ready_context.
Proof.
  split; [reflexivity|].
  destruct (drm_handle_device_outcome "/dev/dri/card9" missing_node
              (mk_State ready_context []) (mk_drm_state 5 3) eq_refl)
    as [st' [tr [Hrun _]]].
  exists st'. split; [exact Hrun|].
  vm_compute in Hrun. injection Hrun as <-. reflexivity.
Defined.

(** X13.  A round trip on a context that has its DRM state touches three
    fields only.  The descriptor becomes the result of the last
    advertisement that got as far as [open]; the flag and the
    authentication type are set once a confirmation is among the events and
    are never cleared; the hooks, the display, the proxy, the library
    handle and the interface descriptor stay as they were.  Every call made
    meanwhile is one of the callbacks'. *)
Theorem wl_display_roundtrip_effect
  (evs : list wl_drm_event) (dpy : ptr) (st : State) (s : drm_state)
  (Hstate : ctx_drm_state (ctx (dc st)) = Some s) :
  exists st' tr,
    wl_display_roundtrip evs dpy st = Some (tt, st') /\
    log st' = (log st ++ C_wl_display_roundtrip dpy :: tr)%list /\
    ctx_drm_state (ctx (dc st')) =
      Some (mk_drm_state (fd_after evs (fd s)) (auth_type_after evs (auth_type s))) /\
    is_authenticated (wl_drm_ctx (dc st')) =
      flag_after evs (is_authenticated (wl_drm_ctx (dc st))) /\
    same_frame (dc st) (dc st') /\
    (forall x, In x tr -> callback_call (drm (wl_drm_ctx (dc st))) x).
Proof.
  unfold wl_display_roundtrip. rewrite run_emit. cbv beta.
  rewrite (dispatch_run evs
             (mk_State (dc st) (log st ++ [C_wl_display_roundtrip dpy])) s Hstate).
  cbn [dc log].
  eexists _, _. split; [reflexivity|].
  split; [now rewrite <- app_assoc|].
  destruct (after_events_state evs (dc st) s Hstate) as [H1 H2].
  split; [exact H1|]. split; [exact H2|].
  split; [apply after_events_frame|].
  intros x Hx. exact (dispatch_calls_callback _ _ _ Hx).
Qed.

Lemma wl_display_roundtrip_effect_witness :
  ctx_drm_state (ctx (dc (mk_State ready_context []))) = Some (mk_drm_state 5 3) /\
  exists st',
    wl_display_roundtrip
      [Ev_device "/dev/dri/card0" (mk_os_answers (Some 8624) None (0, 0));
       Ev_format 875713112] 4096 (mk_State ready_context []) = Some (tt, st') /\
    ctx_drm_state (ctx (dc st')) = Some (mk_drm_state (-1) 3).
Proof.
  split; [reflexivity|].
  destruct (wl_display_roundtrip_effect
              [Ev_device "/dev/dri/card0" (mk_os_answers (Some 8624) None (0, 0));
               Ev_format 875713112] 4096 (mk_State ready_context [])
              (mk_drm_state 5 3) eq_refl)
    as [st' [tr [Hrun [_ [Hs _]]]]].
  exists st'. split; [exact Hrun | exact Hs].
Defined.

(** ** The finalizer and the resolver across the life of a context *)

(** X14.  [va_wayland_drm_finalize] leaves the two hooks installed and the
    display and the interface descriptor in place: it clears what it
    releases and nothing more. *)
Theorem finalize_frame (st : State) :
  exists st',
    va_wayland_drm_finalize st = Some (tt, st') /\
    finalize (opaque (dc st')) = finalize (opaque (dc st)) /\
    vaGetDriverName (dc st') = vaGetDriverName (dc st) /\
    native_dpy (ctx (dc st')) = native_dpy (ctx (dc st)) /\
    drm_interface (wl_drm_ctx (dc st')) = drm_interface (wl_drm_ctx (dc st)).
Proof.
  rewrite finalize_run. eexists. split; [reflexivity|]. cbn. auto.
Qed.

(** X15.  [va_DisplayContextGetDriverName] returns exactly on a context
    that has its DRM state.  It therefore returns after every run of the
    initializer in which the allocation succeeded, even one that returned
    false, and it dereferences a null pointer after the finalizer, as it
    does on a context without DRM state whose initialization could not
    allocate one, although the hook was installed. *)
Theorem GetDriverName_needs_drm_state :
  (forall (en : name_env) (st : State),
     (exists r st', va_DisplayContextGetDriverName en st = Some (r, st')) <->
     (exists s, ctx_drm_state (ctx (dc st)) = Some s)) /\
  (forall (en : name_env) (st st1 : State),
     va_wayland_drm_finalize st = Some (tt, st1) ->
     va_DisplayContextGetDriverName en st1 = None) /\
  (forall (en : name_env) (e : init_env) (st st1 : State) (r : bool),
     va_wayland_drm_init e st = Some (r, st1) ->
     env_calloc e = true ->
     exists r' st2, va_DisplayContextGetDriverName en st1 = Some (r', st2)) /\
  (forall (en : name_env) (e : init_env) (st st1 : State) (r : bool),
     va_wayland_drm_init e st = Some (r, st1) ->
     env_calloc e = false ->
     ctx_drm_state (ctx (dc st)) = None ->
     vaGetDriverName (dc st1) = Some fn_va_DisplayContextGetDriverName /\
     va_DisplayContextGetDriverName en st1 = None).
Proof.
  split; [|split; [|split]].
  - intros en st. split.
    + intros [r [st' H]].
      destruct (ctx_drm_state (ctx (dc st))) as [s|] eqn:Es; [eauto|].
      rewrite (GetDriverName_null en st Es) in H. discriminate.
    + intros [s Hs]. rewrite (GetDriverName_run en st s Hs). eauto.
  - intros en st st1 H. rewrite finalize_run in H. injection H as <-.
    apply GetDriverName_null. reflexivity.
  - intros en e st st1 r H Hc. rewrite init_run_eq in H. injection H as _ <-.
    destruct (init_auth_coupled_state e (dc st) Hc) as [s Hs].
    rewrite (GetDriverName_run en (mk_State (snd (fst (init_run e (dc st)))) _) s Hs).
    eauto.
  - intros en e st st1 r H Hc Hs. rewrite init_run_eq in H. injection H as _ <-.
    cbn [dc]. unfold init_run. rewrite Hc. cbn [negb fst snd]. split; [reflexivity|].
    apply GetDriverName_null. cbn [dc]. exact Hs.
Qed.

(** ** Registry queries and round trips *)

Lemma filter_nil {A} (f : A -> bool) (l : list A) :
  (forall x, In x l -> f x = false) -> filter f l = [].
Proof.
  induction l as [|a l IH]; intro H; cbn; [reflexivity|].
  rewrite (H a (or_introl eq_refl)). apply IH. intros x Hx. apply H. now right.
Qed.

Lemma dispatch_calls_filter (f : call -> bool) (evs : list wl_drm_event)
  (c : VADisplayContext) :
  (forall x, callback_call (drm (wl_drm_ctx c)) x -> f x = false) ->
  filter f (dispatch_calls evs c) = [].
Proof.
  intro H. apply filter_nil. intros x Hx. apply H.
  exact (dispatch_calls_callback _ _ _ Hx).
Qed.

Lemma callback_not_query (p : ptr) (x : call) :
  callback_call p x -> is_get_global x = false.
Proof. destruct x; cbn; auto; contradiction. Qed.

Lemma callback_not_roundtrip (p : ptr) (x : call) :
  callback_call p x -> is_roundtrip x = false.
Proof. destruct x; cbn; auto; contradiction. Qed.

(** X16.  In a run of [va_wayland_drm_init] that gets past the allocation,
    the registry is queried once when the first query finds the interface
    and twice when it does not, the second query following one round trip;
    no run makes more than three round trips, and a run that returns true
    makes two, or three when the registry had to be asked again. *)
Theorem init_queries_and_roundtrips (e : init_env) (st : State) :
  exists r st' tr,
    va_wayland_drm_init e st = Some (r, st') /\
    log st' = (log st ++ tr)%list /\
    List.length (filter is_get_global tr) =
      (if env_calloc e then if env_get_global e =? 0 then 2%nat else 1%nat
       else 0%nat) /\
    (List.length (filter is_roundtrip tr) <= 3)%nat /\
    (env_get_global e <> 0 -> (List.length (filter is_roundtrip tr) <= 2)%nat) /\
    (r = true ->
     List.length (filter is_roundtrip tr) =
       (if env_get_global e =? 0 then 3%nat else 2%nat)).
Proof.
  rewrite init_run_eq. eexists _, _, _. split; [reflexivity|]. cbn [log].
  split; [reflexivity|].
  set (c := dc st).
  assert (Q1 : filter is_get_global
                 (dispatch_calls (env_roundtrip_device e) (init_bound e c)) = [])
    by (apply dispatch_calls_filter; intros x; apply callback_not_query).
  assert (Q2 : filter is_get_global
                 (dispatch_calls (env_roundtrip_auth e) (init_advertised e c)) = [])
    by (apply dispatch_calls_filter; intros x; apply callback_not_query).
  assert (R1 : filter is_roundtrip
                 (dispatch_calls (env_roundtrip_device e) (init_bound e c)) = [])
    by (apply dispatch_calls_filter; intros x; apply callback_not_roundtrip).
  assert (R2 : filter is_roundtrip
                 (dispatch_calls (env_roundtrip_auth e) (init_advertised e c)) = [])
    by (apply dispatch_calls_filter; intros x; apply callback_not_roundtrip).
  destruct (init_run_cases e c)
    as [[Hc E]|[Hc [[R E]|[R [[D E]|[D [[S E]|[S [[B E]|[B [E|[r E]]]]]]]]]]]];
    rewrite E; cbn [fst snd]; rewrite Hc;
    unfold calls_confirmed, calls_advertised, calls_bound, calls_resolved,
      calls_loaded, calls_registry, registry_calls;
    rewrite ?filter_app; cbn [filter is_get_global is_roundtrip];
    rewrite ?filter_app; cbn [filter is_get_global is_roundtrip];
    rewrite ?Q1, ?Q2, ?R1, ?R2;
    destruct (Z.eqb_spec (env_get_global e) 0) as [G|G];
    cbn; repeat split; try lia; try discriminate; try reflexivity;
    try (intro; contradiction); try (intro; lia).
Qed.
